(** * A shallow embedding of the Shopify catalog service (shopify.service.ts, store.dto.ts)

    Strings are Rocq [string]s (ASCII). Numbers that the source keeps as
    JavaScript numbers are modelled as [Z] where only integral values occur
    in the properties studied. A GraphQL round trip is a value of [gql]:
    either the client throws, or it answers with optional [data] and an
    optional [errors] message. *)

From Stdlib Require Import String Ascii ZArith List Bool Lia.
From Stdlib Require Import Numbers.DecimalString Sorting.Permutation Sorting.Sorted.
Import ListNotations.
Open Scope string_scope.

(** ** String helpers mirroring JavaScript's String API *)

(** [strip_prefix p s] is [Some r] when [s = p ++ r]. *)
Fixpoint strip_prefix (p s : string) : option string :=
  match p, s with
  | EmptyString, _ => Some s
  | String c p', String d s' => if Ascii.eqb c d then strip_prefix p' s' else None
  | String _ _, EmptyString => None
  end.

(** [s.startsWith(p)] *)
Definition startsWith (s p : string) : bool :=
  match strip_prefix p s with Some _ => true | None => false end.

(** [s.replace(pat, rep)] with a string pattern: only the first occurrence. *)
Fixpoint replace_first (pat rep s : string) : string :=
  match strip_prefix pat s with
  | Some r => rep ++ r
  | None =>
      match s with
      | EmptyString => s
      | String c s' => String c (replace_first pat rep s')
      end
  end.

(** [s.replace(/c/g, rep)]: every occurrence of one character. *)
Fixpoint replace_all_char (c : ascii) (rep s : string) : string :=
  match s with
  | EmptyString => EmptyString
  | String d s' =>
      if Ascii.eqb c d then rep ++ replace_all_char c rep s'
      else String d (replace_all_char c rep s')
  end.

Definition is_digit (c : ascii) : bool :=
  let n := nat_of_ascii c in (48 <=? n)%nat && (n <=? 57)%nat.

Fixpoint all_chars (f : ascii -> bool) (s : string) : bool :=
  match s with
  | EmptyString => true
  | String c s' => f c && all_chars f s'
  end.

(** [/^\d+$/.test(s)] *)
Definition is_numeric (s : string) : bool :=
  match s with EmptyString => false | _ => all_chars is_digit s end.

(** ASCII whitespace and line terminators, as recognised by [trim]. *)
Definition is_ws (c : ascii) : bool :=
  let n := nat_of_ascii c in (n =? 32)%nat || ((9 <=? n)%nat && (n <=? 13)%nat).

Fixpoint trim_start (s : string) : string :=
  match s with
  | String c s' => if is_ws c then trim_start s' else s
  | EmptyString => EmptyString
  end.

Fixpoint rev_string (s : string) : string :=
  match s with
  | EmptyString => EmptyString
  | String c s' => rev_string s' ++ String c EmptyString
  end.

(** [s.trim()] *)
Definition trim (s : string) : string := rev_string (trim_start (rev_string (trim_start s))).

(** A JavaScript template literal [`${n}`] for an integral number. *)
Definition z_to_string (z : Z) : string := NilEmpty.string_of_int (Z.to_int z).

(** ** Results: a thrown [Error] carries its message *)

Inductive res (A : Type) : Type :=
| Ok (a : A)
| Err (msg : string).
Arguments Ok {A} a.
Arguments Err {A} msg.

(** One GraphQL round trip through [graphqlRequest]. *)
Inductive gql (D : Type) : Type :=
| GThrow (msg : string)
| GResp (data : option D) (errors : option string).
Arguments GThrow {D} msg.
Arguments GResp {D} data errors.

(** ** Identifier codec (ShopifyService helpers) *)

Definition product_prefix : string := "gid://shopify/Product/".

(** [simplifyProductGid]: [id.replace('gid://shopify/Product/', '')] *)
Definition simplifyProductGid (id : string) : string :=
  replace_first product_prefix "" id.

(** [ensureProductGid]: a thrown [Error] becomes [Err]. *)
Definition ensureProductGid (id : string) : res string :=
  if startsWith id product_prefix then Ok id
  else if is_numeric id then Ok (product_prefix ++ id)
  else Err ("Unsupported Shopify product identifier: " ++ id).

(** Characters matched by [.] in a JavaScript regex (no line terminators). *)
Definition is_line_terminator (c : ascii) : bool :=
  let n := nat_of_ascii c in (n =? 10)%nat || (n =? 13)%nat.

(** Split at the first ['/']: [(before, Some after)] or [(s, None)]. *)
Fixpoint split_slash (s : string) : string * option string :=
  match s with
  | EmptyString => (EmptyString, None)
  | String c s' =>
      if Ascii.eqb c "/"%char then (EmptyString, Some s')
      else let (a, b) := split_slash s' in (String c a, b)
  end.

(** [simplifyGid]: [id.replace(/^gid:\/\/shopify\/[^/]+\/(.+)$/, '$1')] *)
Definition simplifyGid (id : string) : string :=
  match strip_prefix "gid://shopify/" id with
  | Some r =>
      match split_slash r with
      | (String _ _, Some (String _ _ as rest)) =>
          if all_chars (fun c => negb (is_line_terminator c)) rest then rest else id
      | _ => id
      end
  | None => id
  end.

(** ** Search parameters (ProductSearchParamsSchema after parsing) *)

Inductive sort_by := SortUpdated | SortName.
Inductive sort_dir := Asc | Desc.

Record SortItem := { by_ : sort_by; dir : sort_dir }.

Record Filters := {
  category : option string;
  price_min : option Z;
  price_max : option Z;
  available_only : option bool;
  vendor : option string
}.

Definition no_filters : Filters :=
  {| category := None; price_min := None; price_max := None;
     available_only := None; vendor := None |}.

Record ProductSearchParams := {
  query : option string;
  page : Z;
  limit : Z;
  sort : list SortItem;
  filters : option Filters
}.

(** JavaScript truthiness of an optional string. *)
Definition truthy_str (s : option string) : option string :=
  match s with Some (String _ _ as v) => Some v | _ => None end.

(** ** Query builder *)

(** The characters [\] and the double quote. *)
Definition backslash : ascii := ascii_of_nat 92.
Definition dquote : ascii := ascii_of_nat 34.

(** [escapeDefault]: [q.replace(/"/g, '\\"')] *)
Definition escapeDefault (q : string) : string :=
  replace_all_char dquote (String backslash (String dquote EmptyString)) q.

(** [kv]: [`${key}:'${value.replace(/'/g, "\\'")}'`] *)
Definition kv (key value : string) : string :=
  let v := replace_all_char "'"%char (String backslash (String "'"%char EmptyString)) value in
  key ++ ":'" ++ v ++ "'".

Definition push (parts : list string) (x : string) : list string := parts ++ [x].

(** [buildShopifyQuery]: each [if] pushes onto [parts], then [parts.join(' ')]. *)
Definition buildShopifyQuery (params : ProductSearchParams) : string :=
  let parts : list string := [] in
  let parts :=
    match query params with
    | Some q => if String.eqb (trim q) "" then parts else push parts (escapeDefault (trim q))
    | None => parts
    end in
  let f := match filters params with Some f => f | None => no_filters end in
  let parts := match truthy_str (vendor f) with Some v => push parts (kv "vendor" v) | None => parts end in
  let parts := match truthy_str (category f) with Some c => push parts (kv "product_type" c) | None => parts end in
  let parts := match price_min f with Some n => push parts ("price:>=" ++ z_to_string n) | None => parts end in
  let parts := match price_max f with Some n => push parts ("price:<=" ++ z_to_string n) | None => parts end in
  let parts := match available_only f with Some true => push parts "inventory_total:>0" | _ => parts end in
  String.concat " " parts.

(** The token list as the spec words it: free text first, then the filters
    in declaration order vendor, product_type, price:>=, price:<=,
    inventory_total:>0. *)
Definition opt_token {A} (o : option A) (tok : A -> string) : list string :=
  match o with Some a => [tok a] | None => [] end.

Definition spec_query_tokens (params : ProductSearchParams) : list string :=
  let f := match filters params with Some f => f | None => no_filters end in
  opt_token (match query params with
             | Some q => if String.eqb (trim q) "" then None else Some (trim q)
             | None => None end) escapeDefault
  ++ opt_token (truthy_str (vendor f)) (kv "vendor")
  ++ opt_token (truthy_str (category f)) (kv "product_type")
  ++ opt_token (price_min f) (fun n => "price:>=" ++ z_to_string n)
  ++ opt_token (price_max f) (fun n => "price:<=" ++ z_to_string n)
  ++ opt_token (match available_only f with Some true => Some tt | _ => None end)
                (fun _ => "inventory_total:>0").

Definition ex_params : ProductSearchParams :=
  {| query := Some ("  red " ++ String dquote "shoe" ++ String dquote " "); page := 1%Z; limit := 10%Z; sort := [];
     filters := Some {| category := Some "Shoes"; price_min := Some 10%Z; price_max := Some 200%Z;
                        available_only := Some true; vendor := Some "O'Neil" |} |}.

Example build_ex :
  buildShopifyQuery ex_params =
  "red " ++ String backslash (String dquote "shoe") ++ String backslash (String dquote " vendor:'O\'Neil' product_type:'Shoes' price:>=10 price:<=200 inventory_total:>0").
Proof. vm_compute. reflexivity. Qed.

(** [mapSort] *)
Definition mapSort (params : ProductSearchParams) : string * bool :=
  let has_query := match truthy_str (query params) with Some _ => true | None => false end in
  match sort params with
  | [] => if has_query then ("RELEVANCE", false) else ("ID", false)
  | first :: _ =>
      let rev := match dir first with Desc => true | Asc => false end in
      match by_ first with
      | SortUpdated => ("UPDATED_AT", rev)
      | SortName => ("TITLE", rev)
      end
  end.

(** ** Health check *)

Record ShopDefinition := { shop_id : string; shop_name : string; shop_email : string }.

Inductive health_kind := Healthy | Warning | HError.

(** [HealthStatus] without its [lastCheck] timestamp. *)
Record HealthStatus := { status : health_kind; message : option string }.

(** [checkHealth]: the [try] block destructures [data] only; the [catch]
    turns a thrown error into a status. *)
Definition checkHealth (reply : gql ShopDefinition) : HealthStatus :=
  match reply with
  | GThrow m => {| status := HError; message := Some m |}
  | GResp (Some _) _ => {| status := Healthy; message := None |}
  | GResp None _ => {| status := Warning; message := Some "No data returned from Shopify API" |}
  end.

(** ** Product count *)

(** [countProducts]: the count backend receives [queryString || null] and
    answers [productsCount.count]; a throw or a missing [data] yields 0. *)
Definition query_var (q : string) : option string :=
  match q with EmptyString => None | _ => Some q end.

Definition countProducts (count_backend : option string -> gql Z)
  (params : ProductSearchParams) : Z :=
  match count_backend (query_var (buildShopifyQuery params)) with
  | GThrow _ => 0%Z
  | GResp (Some c) _ => c
  | GResp None _ => 0%Z
  end.

(** ** Search: page-number pagination over a cursor listing *)

Record PageInfo := { hasNextPage : bool; endCursor : option string }.

Record SearchVars := {
  first : Z;
  after : option string;
  sv_query : option string;
  sortKey : string;
  reverse : bool
}.

Record Meta := { total : Z; m_page : Z; m_limit : Z; hasPrev : bool; hasNext : bool }.

Section Search.
(** Backend product nodes and their normalised form; [mapUnifiedProduct]
    is the pure normaliser applied to every listed node. *)
Variables Node Item : Type.
Variable mapUnifiedProduct : Node -> Item.

Record ProductsConn := { p_edges : list Node; p_pageInfo : option PageInfo }.
Record ProductsData := { products : option ProductsConn }.

Record ProductPage := { meta : Meta; items : list Item }.

Definition page_of (params : ProductSearchParams) : Z :=
  Z.max 1 (if (page params =? 0)%Z then 1%Z else page params).

Definition limit_of (params : ProductSearchParams) : Z :=
  Z.max 1 (Z.min (if (limit params =? 0)%Z then 20%Z else limit params) 250).

(** The [for (let i = 1; i < page; i += 1)] walk: [inl tt] is the early
    out-of-range return, [inr after] the cursor reached. *)
Fixpoint skip_pages (backend : SearchVars -> gql ProductsData) (mk : option string -> SearchVars)
  (n : nat) (after : option string) : res (unit + option string) :=
  match n with
  | O => Ok (inr after)
  | S n' =>
      match backend (mk after) with
      | GThrow m => Err m
      | GResp d _ =>
          let pageInfo :=
            match d with
            | Some pd => match products pd with Some c => p_pageInfo c | None => None end
            | None => None
            end in
          match pageInfo with
          | Some pi => if hasNextPage pi then skip_pages backend mk n' (endCursor pi) else Ok (inl tt)
          | None => Ok (inl tt)
          end
      end
  end.

Definition search (params : ProductSearchParams) (count_backend : option string -> gql Z)
  (backend : SearchVars -> gql ProductsData) : res ProductPage :=
  let queryString := buildShopifyQuery params in
  let (sk, rv) := mapSort params in
  let tot := countProducts count_backend params in
  let pg := page_of params in
  let lim := limit_of params in
  let mk := fun a => {| first := lim; after := a; sv_query := query_var queryString;
                        sortKey := sk; reverse := rv |} in
  match skip_pages backend mk (Z.to_nat (pg - 1)) None with
  | Err m => Err m
  | Ok (inl _) =>
      Ok {| meta := {| total := tot; m_page := pg; m_limit := lim;
                       hasPrev := (pg >? 1)%Z; hasNext := false |};
            items := [] |}
  | Ok (inr a) =>
      match backend (mk a) with
      | GThrow m => Err m
      | GResp d _ =>
          let conn := match d with Some pd => products pd | None => None end in
          let edges := match conn with Some c => p_edges c | None => [] end in
          let pageInfo := match conn with Some c => p_pageInfo c | None => None end in
          Ok {| meta := {| total := tot; m_page := pg; m_limit := lim; hasPrev := (pg >? 1)%Z;
                           hasNext := match pageInfo with Some pi => hasNextPage pi | None => false end |};
                items := map mapUnifiedProduct edges |}
      end
  end.

(** A listing backend over a fixed sequence of nodes: the cursor after
    position [k] is a string of length [k]. *)
Fixpoint cursor_at (k : nat) : string :=
  match k with O => EmptyString | S k' => String "c" (cursor_at k') end.

Definition pos_of (a : option string) : nat :=
  match a with Some c => String.length c | None => O end.

Definition dataset_backend (data : list Node) (v : SearchVars) : gql ProductsData :=
  let start := pos_of (after v) in
  let es := firstn (Z.to_nat (first v)) (skipn start data) in
  GResp (Some {| products := Some {| p_edges := es;
                 p_pageInfo := Some {| hasNextPage := (start + length es <? length data)%nat;
                                       endCursor := match es with
                                                    | [] => None
                                                    | _ => Some (cursor_at (start + length es))
                                                    end |} |} |})
        None.
End Search.

Arguments skip_pages {Node}.
Arguments search {Node Item}.
Arguments meta {Item}.
Arguments items {Item}.
Arguments products {Node}.
Arguments p_edges {Node}.
Arguments p_pageInfo {Node}.
Arguments dataset_backend {Node}.

(** ** Product details and the variant-overflow walk *)

Section Details.
(** Variant nodes, the remaining fields of a product node, and the
    normalised record. *)
Variables VNode Rest Item : Type.

Record VariantsConn := { v_edges : list VNode; v_pageInfo : PageInfo }.

Record ProductNode := { pn_id : string; pn_rest : Rest; pn_variants : VariantsConn }.

Variable mapUnifiedProduct : ProductNode -> Item.

(** [{ product: GQLProductNode | null }] of PRODUCT_DETAILS. *)
Record DetailData := { d_product : option ProductNode }.
(** [{ product: { variants } }] of PRODUCT_VARIANTS_PAGE. *)
Record VariantsData := { vd_variants : option VariantsConn }.
Record VariantsPageData := { vp_product : option VariantsData }.

Record VariantsVars := { vv_id : string; vv_after : option string }.

(** [x || null] for an optional string. *)
Definition or_null (s : option string) : option string :=
  match s with Some (String _ _) => s | _ => None end.

(** The [while (hasNext)] loop of [fetchAdditionalVariants]; [k] counts the
    requests issued so far. [None] means the fuel ran out with the loop
    still running. *)
Fixpoint fetch_loop (backend : nat -> VariantsVars -> gql VariantsPageData) (id : string)
  (fuel k : nat) (hasNext : bool) (next : option string) (acc : list VNode)
  : option (res (list VNode)) :=
  if negb hasNext then Some (Ok acc) else
  match fuel with
  | O => None
  | S fuel' =>
      match backend k {| vv_id := id; vv_after := next |} with
      | GThrow m => Some (Err m)
      | GResp d _ =>
          let chunk := match d with
                       | Some pd => match vp_product pd with Some p => vd_variants p | None => None end
                       | None => None
                       end in
          match chunk with
          | None => Some (Ok acc)
          | Some c =>
              fetch_loop backend id fuel' (S k) (hasNextPage (v_pageInfo c))
                (or_null (endCursor (v_pageInfo c))) (acc ++ v_edges c)
          end
      end
  end.

Definition fetchAdditionalVariants (backend : nat -> VariantsVars -> gql VariantsPageData)
  (fuel : nat) (id : string) (after : option string) : option (res (list VNode)) :=
  fetch_loop backend id fuel 0 true (or_null after) [].

(** [findProduct]; the detail query receives the product GID. *)
Definition findProduct (detail : string -> gql DetailData)
  (more : nat -> VariantsVars -> gql VariantsPageData) (fuel : nat) (id : string)
  : option (res Item) :=
  match ensureProductGid id with
  | Err m => Some (Err m)
  | Ok shopifyGid =>
      match detail shopifyGid with
      | GThrow m => Some (Err m)
      | GResp d _ =>
          match match d with Some dd => d_product dd | None => None end with
          | None => Some (Err ("Shopify product not found: " ++ id))
          | Some product =>
              let vs := pn_variants product in
              let merge extra :=
                mapUnifiedProduct
                  {| pn_id := pn_id product; pn_rest := pn_rest product;
                     pn_variants := {| v_edges := v_edges vs ++ extra; v_pageInfo := v_pageInfo vs |} |} in
              if hasNextPage (v_pageInfo vs) then
                match fetchAdditionalVariants more fuel shopifyGid (endCursor (v_pageInfo vs)) with
                | None => None
                | Some (Err m) => Some (Err m)
                | Some (Ok extra) => Some (Ok (merge extra))
                end
              else Some (Ok (merge []))
          end
      end
  end.
End Details.

Arguments fetch_loop {VNode}.
Arguments fetchAdditionalVariants {VNode}.
Arguments findProduct {VNode Rest Item}.
Arguments v_edges {VNode}.
Arguments v_pageInfo {VNode}.
Arguments pn_id {VNode Rest}.
Arguments pn_rest {VNode Rest}.
Arguments pn_variants {VNode Rest}.
Arguments d_product {VNode Rest}.
Arguments vd_variants {VNode}.
Arguments vp_product {VNode}.

(** ** Product creation input (CreateProductSchema) *)

Inductive qty_name := QAvailable | QOnHand.

Record InventoryQuantity := { locationId : string; iq_name : qty_name; quantity : Z }.
Record VariantInventory := { tracked : bool; cost : option Z; requiresShipping : bool }.
Record ProductOptionValue := { optionName : string; ov_name : string }.

Record ProductVariant := {
  optionValues : list ProductOptionValue;
  price : Z;
  compareAtPrice : option Z;
  inventoryItem : option VariantInventory;
  inventoryQuantities : option (list InventoryQuantity);
  sku : option string
}.

(** [{ name, values: [{ name }] }]; the value objects are kept as their names. *)
Record ProductOption := { po_name : string; po_values : list string }.

Record CreateProduct := {
  cp_title : string;
  descriptionHtml : option string;
  productType : option string;
  cp_vendor : option string;
  productOptions : list ProductOption;
  variants : list ProductVariant
}.

(** [ProductVariantSchema]: field checks, then its [refine] on [compareAtPrice]. *)
Definition valid_variant (v : ProductVariant) : bool :=
  (0 <=? price v)%Z
  && match compareAtPrice v with Some c => (0 <=? c)%Z | None => true end
  && match inventoryQuantities v with
     | Some qs => forallb (fun q => (0 <=? quantity q)%Z) qs
     | None => true
     end
  && match sku v with Some s => (String.length (trim s) <=? 255)%nat | None => true end
  && match compareAtPrice v with Some c => (price v <? c)%Z | None => true end.

(** [optionMap[name]] of [Object.fromEntries(...)]: the last entry with that
    name wins. Keys inherited from [Object.prototype] are not modelled. *)
Definition optionMap_lookup (opts : list ProductOption) (name : string) : option (list string) :=
  match find (fun o => String.eqb (po_name o) name) (rev opts) with
  | Some o => Some (po_values o)
  | None => None
  end.

(** The [refine] callback of [CreateProductSchema]. *)
Definition options_consistent (data : CreateProduct) : bool :=
  if (0 <? length (variants data))%nat && (length (productOptions data) =? 0)%nat then false
  else
    forallb (fun variant =>
      forallb (fun ov =>
        match optionMap_lookup (productOptions data) (optionName ov) with
        | None => false
        | Some vals => existsb (String.eqb (ov_name ov)) vals
        end) (optionValues variant)) (variants data).

(** [CreateProductSchema.safeParse(..).success] *)
Definition validate_create (data : CreateProduct) : bool :=
  (length (productOptions data) <=? 3)%nat
  && (length (variants data) <=? 100)%nat
  && forallb valid_variant (variants data)
  && options_consistent data.

(** ** The live creation schema (the dto appended to store.tool.ts)

    The copy of [CreateProductSchema] that the newest store tool imports
    (together with [FileSetSchema]) extends the one above with files on the
    product and on each variant, turns ids into GIDs with [toGid], and ends
    in a [superRefine] with four more checks. Only integral numbers are
    modelled among the numeric ids that [toGid] accepts. *)

Module StoreToolDto.

Inductive IdInput := IdString (s : string) | IdNumber (n : Z).

Definition is_alpha (c : ascii) : bool :=
  let n := nat_of_ascii c in
  ((65 <=? n)%nat && (n <=? 90)%nat) || ((97 <=? n)%nat && (n <=? 122)%nat).

(** [/^gid:\/\/shopify\/[A-Za-z]+\/\d+$/.test(v)] *)
Definition gid_shape_ok (g : string) : bool :=
  match strip_prefix "gid://shopify/" g with
  | Some r =>
      match split_slash r with
      | (String _ _ as kind, Some rest) => all_chars is_alpha kind && is_numeric rest
      | _ => false
      end
  | None => false
  end.

(** [/^gid:\/\/shopify\/Location\/\d+$/.test(v)] *)
Definition location_gid_ok (g : string) : bool :=
  match strip_prefix "gid://shopify/Location/" g with
  | Some r => is_numeric r
  | None => false
  end.

(** [toGid(resource)]: the transformed id, or [None] when its [refine] fails. *)
Definition toGid (resource : string) (v : IdInput) : option string :=
  let s := match v with IdNumber n => z_to_string n | IdString s => trim s end in
  let g := if startsWith s "gid://shopify/" then s else "gid://shopify/" ++ resource ++ "/" ++ s in
  if gid_shape_ok g then Some g else None.

Inductive file_content_type := IMAGE | VIDEO | EXTERNAL_VIDEO | MODEL_3D | FILE.

Record FileSet := {
  fs_id : option IdInput;
  originalSource : option string;
  fs_alt : option string;
  contentType : option file_content_type
}.

Record InventoryQuantity := { locationId : IdInput; iq_name : qty_name; quantity : Z }.
Record VariantInventory := { tracked : option bool; cost : option Z; requiresShipping : option bool }.

Record ProductVariant := {
  optionValues : list ProductOptionValue;
  price : Z;
  compareAtPrice : option Z;
  inventoryItem : option VariantInventory;
  inventoryQuantities : option (list InventoryQuantity);
  sku : option string;
  file : option FileSet
}.

Record CreateProduct := {
  cp_title : string;
  descriptionHtml : option string;
  productType : option string;
  cp_vendor : option string;
  productOptions : list ProductOption;
  variants : list ProductVariant;
  files : list FileSet
}.

Section Schema.
(** [z.string().url()] *)
Variable is_url : string -> bool.
(** [String.prototype.localeCompare], as a sign. *)
Variable localeCompare : string -> string -> Z.

(** The parsed [id] of a file: [toGid('File')] when present. *)
Definition file_id (f : FileSet) : option string :=
  match fs_id f with Some v => toGid "File" v | None => None end.

(** [FileSetSchema.safeParse(..).success]: the field checks and the
    [refine] asking for an [id] or an [originalSource]. *)
Definition valid_file (f : FileSet) : bool :=
  match fs_id f with Some v => match toGid "File" v with Some _ => true | None => false end | None => true end
  && match originalSource f with Some u => is_url u | None => true end
  && (match file_id f with Some (String _ _) => true | _ => false end
      || match originalSource f with Some (String _ _) => true | _ => false end).

(** [ProductVariantSchema]: field checks, then its [refine] on [compareAtPrice]. *)
Definition valid_variant (v : ProductVariant) : bool :=
  (0 <=? price v)%Z
  && match compareAtPrice v with Some c => (0 <=? c)%Z | None => true end
  && match inventoryQuantities v with
     | Some qs => forallb (fun q => match toGid "Location" (locationId q) with Some _ => true | None => false end
                                    && (0 <=? quantity q)%Z) qs
     | None => true
     end
  && match sku v with Some s => (String.length (trim s) <=? 255)%nat | None => true end
  && match file v with Some f => valid_file f | None => true end
  && match compareAtPrice v with Some c => (price v <? c)%Z | None => true end.

(** The [refine] callback of [CreateProductSchema]. *)
Definition options_consistent (data : CreateProduct) : bool :=
  if (0 <? length (variants data))%nat && (length (productOptions data) =? 0)%nat then false
  else
    forallb (fun variant =>
      forallb (fun ov =>
        match optionMap_lookup (productOptions data) (optionName ov) with
        | None => false
        | Some vals => existsb (String.eqb (ov_name ov)) vals
        end) (optionValues variant)) (variants data).

(** superRefine 1): a variant's file must be listed in [files], by [id] or
    by [originalSource]. *)
Definition files_listed (data : CreateProduct) : bool :=
  let ids := flat_map (fun f => match file_id f with Some (String _ _ as i) => [i] | _ => [] end) (files data) in
  let srcs := flat_map (fun f => match originalSource f with Some (String _ _ as s) => [s] | _ => [] end)
                (files data) in
  forallb (fun v =>
    match file v with
    | None => true
    | Some f =>
        match file_id f with Some (String _ _ as i) => existsb (String.eqb i) ids | _ => false end
        || match originalSource f with Some (String _ _ as s) => existsb (String.eqb s) srcs | _ => false end
    end) (variants data).

(** superRefine 2) and 3): with a non-empty [inventoryQuantities],
    [inventoryItem.tracked] (default [true]) must hold and every
    [locationId] must be a Location GID. *)
Definition inventory_ok (v : ProductVariant) : bool :=
  match inventoryQuantities v with
  | Some (_ :: _ as qs) =>
      match inventoryItem v with
      | Some it => match tracked it with Some b => b | None => true end
      | None => false
      end
      && forallb (fun q => match toGid "Location" (locationId q) with
                           | Some g => location_gid_ok g
                           | None => false
                           end) qs
  | _ => true
  end.

(** [[...v.optionValues].sort((a, b) => a.optionName.localeCompare(b.optionName))]:
    a stable sort by option name, written as an insertion sort (for a
    consistent comparator every stable sort gives this result). *)
Fixpoint insert_by_name (x : ProductOptionValue) (l : list ProductOptionValue) : list ProductOptionValue :=
  match l with
  | [] => [x]
  | y :: l' => if (0 <? localeCompare (optionName x) (optionName y))%Z
               then y :: insert_by_name x l' else x :: l
  end.

Fixpoint sort_by_name (l : list ProductOptionValue) : list ProductOptionValue :=
  match l with
  | [] => []
  | x :: r => insert_by_name x (sort_by_name r)
  end.

(** The [JSON.stringify] key of a variant; two keys are equal strings
    exactly when the sorted lists hold the same names in the same order. *)
Definition variant_key (v : ProductVariant) : list ProductOptionValue := sort_by_name (optionValues v).

Definition pov_eqb (a b : ProductOptionValue) : bool :=
  String.eqb (optionName a) (optionName b) && String.eqb (ov_name a) (ov_name b).

Fixpoint key_eqb (k1 k2 : list ProductOptionValue) : bool :=
  match k1, k2 with
  | [], [] => true
  | a :: k1', b :: k2' => pov_eqb a b && key_eqb k1' k2'
  | _, _ => false
  end.

(** superRefine 4): the [seen] set walk over the variants. *)
Fixpoint no_duplicate_variants (seen : list (list ProductOptionValue)) (vs : list ProductVariant) : bool :=
  match vs with
  | [] => true
  | v :: rest =>
      let k := variant_key v in
      if existsb (key_eqb k) seen then false else no_duplicate_variants (k :: seen) rest
  end.

(** [CreateProductSchema.safeParse(..).success]: every field check, the
    [refine] and the four [superRefine] checks must pass. *)
Definition CreateProductSchema_ok (data : CreateProduct) : bool :=
  (length (productOptions data) <=? 3)%nat
  && (length (variants data) <=? 100)%nat
  && forallb valid_variant (variants data)
  && forallb valid_file (files data)
  && options_consistent data
  && files_listed data
  && forallb inventory_ok (variants data)
  && no_duplicate_variants [] (variants data).

End Schema.

(** What the duplicate check needs of [localeCompare] on the option names
    [ns] of a variant: distinct names never compare equal, the sign flips
    with the arguments, and "not after" is transitive. *)
Definition localeCompare_strict (cmp : string -> string -> Z) (ns : list string) : Prop :=
  (forall a b, In a ns -> In b ns -> a <> b -> cmp a b <> 0%Z) /\
  (forall a b, In a ns -> In b ns -> ((cmp a b < 0)%Z <-> (0 < cmp b a)%Z)) /\
  (forall a b c, In a ns -> In b ns -> In c ns ->
     (cmp a b <= 0)%Z -> (cmp b c <= 0)%Z -> (cmp a c <= 0)%Z).
End StoreToolDto.

(** ** Creation orchestrator ([create] and [waitForProductOperation]) *)

Inductive op_status := CREATED | ACTIVE | COMPLETE.

Definition op_status_str (s : op_status) : string :=
  match s with CREATED => "CREATED" | ACTIVE => "ACTIVE" | COMPLETE => "COMPLETE" end.

Record SetOperation := { op_id : string; op_status_of : op_status; op_product : option string }.

(** [productSet] of the mutation: [product] (synchronous) and
    [productSetOperation] (asynchronous) are independently nullable. *)
Record ProductCreateResponse := {
  cr_product : option string;
  productSetOperation : option SetOperation;
  userErrors : list string
}.

Record PollOperation := {
  po_id : string;
  po_status : op_status;
  po_product : option string;
  po_userErrors : list string
}.

Record PollData := { productOperation : option PollOperation }.

Definition intervalMs : Z := 1500.
Definition timeoutMs : Z := 120000.

(** The [for (;;)] loop of [waitForProductOperation]. [poll k] answers the
    [k]-th status request, [elapsed k] is [Date.now() - started] at the
    [k]-th timeout check. [None]: the fuel ran out with the loop running. *)
Fixpoint wait_loop (poll : nat -> string -> gql PollData) (elapsed : nat -> Z)
  (operationId : string) (fuel k : nat) : option (res string) :=
  match fuel with
  | O => None
  | S fuel' =>
      match poll k operationId with
      | GThrow m => Some (Err m)
      | GResp _ (Some e) => Some (Err ("Polling error: " ++ e))
      | GResp None None => Some (Err "Polling error: no operation data")
      | GResp (Some pd) None =>
          match productOperation pd with
          | None => Some (Err "Polling error: no operation data")
          | Some op =>
              match po_userErrors op with
              | _ :: _ => Some (Err ("ProductSet operation failed: " ++ String.concat ", " (po_userErrors op)))
              | [] =>
                  match po_status op with
                  | COMPLETE =>
                      match po_product op with
                      | Some pid => Some (Ok pid)
                      | None => Some (Err "Operation COMPLETE but product id is missing")
                      end
                  | st =>
                      if (elapsed k >? timeoutMs)%Z
                      then Some (Err ("Timed out waiting for productSet operation (last status: "
                                      ++ op_status_str st ++ ")"))
                      else wait_loop poll elapsed operationId fuel' (S k)
                  end
              end
          end
      end
  end.

Definition waitForProductOperation poll elapsed operationId fuel :=
  wait_loop poll elapsed operationId fuel 0.

Definition no_reach_msg : string := "Failed to create product: No debió llegas aqui".

(** [create]: the mutation receives the input and the [synchronous] hint. *)
Definition create (mutate : CreateProduct -> bool -> gql ProductCreateResponse)
  (poll : nat -> string -> gql PollData) (elapsed : nat -> Z) (fuel : nat)
  (dto : CreateProduct) : option (res string) :=
  let synchronous := (length (variants dto) <=? 10)%nat in
  match mutate dto synchronous with
  | GThrow m => Some (Err m)
  | GResp _ (Some e) => Some (Err ("Failed to create product: " ++ e))
  | GResp None None => Some (Err "Failed to create product: No response data")
  | GResp (Some r) None =>
      match userErrors r with
      | _ :: _ => Some (Err ("Failed to create product: " ++ String.concat ", " (userErrors r)))
      | [] =>
          match synchronous, cr_product r, productSetOperation r with
          | true, Some pid, _ => Some (Ok (simplifyGid pid))
          | false, _, Some op =>
              match op_status_of op with
              | COMPLETE =>
                  match op_product op with
                  | Some pid => Some (Ok pid)
                  | None => Some (Err "TypeError: Cannot read properties of undefined (reading 'id')")
                  end
              | _ => waitForProductOperation poll elapsed (op_id op) fuel
              end
          | _, _, _ => Some (Err no_reach_msg)
          end
      end
  end.

(** ** Record normaliser ([extractPrimaryImage], [mapUnifiedProduct]) *)

Record ImageRef := { img_url : string; altText : option string }.

Inductive media_typename := MediaImage | Video | ExternalVideo | Model3d.

(** A media node: [image] exists on [MediaImage] nodes only;
    [m_preview] is [preview?.image]. *)
Record MediaNode := {
  typename : media_typename;
  m_image : option ImageRef;
  m_preview : option ImageRef
}.

Record ImageObject := { io_url : string; io_alt : option string }.

(** [url ?? null] followed by [if (url)]: a null or empty url is skipped. *)
Definition truthy_url (u : option string) : option string := truthy_str u.

(** [n.image?.url ?? n.preview?.image?.url ?? null] and the alt text alike. *)
Definition media_url (n : MediaNode) : option string :=
  match m_image n with
  | Some i => Some (img_url i)
  | None => match m_preview n with Some p => Some (img_url p) | None => None end
  end.

Definition media_alt (n : MediaNode) : option string :=
  match match m_image n with Some i => altText i | None => None end with
  | Some a => Some a
  | None => match m_preview n with Some p => altText p | None => None end
  end.

(** The body of the [for] loop over [p.media.edges]: steps 2) and 3). *)
Definition media_candidate (n : MediaNode) : option ImageObject :=
  let from_image :=
    match typename n with
    | MediaImage =>
        match truthy_url (media_url n) with
        | Some u => Some {| io_url := u; io_alt := media_alt n |}
        | None => None
        end
    | _ => None
    end in
  match from_image with
  | Some r => Some r
  | None =>
      match m_preview n with
      | Some prev =>
          match truthy_url (Some (img_url prev)) with
          | Some u => Some {| io_url := u; io_alt := altText prev |}
          | None => None
          end
      | None => None
      end
  end.

Fixpoint first_media (ms : list MediaNode) : option ImageObject :=
  match ms with
  | [] => None
  | n :: rest => match media_candidate n with Some r => Some r | None => first_media rest end
  end.

(** [extractPrimaryImage] *)
Definition extractPrimaryImage (featured : option MediaNode) (media : list MediaNode) : option ImageObject :=
  let from_featured :=
    match featured with
    | Some f =>
        match typename f with
        | MediaImage =>
            match truthy_url (media_url f) with
            | Some u => Some {| io_url := u; io_alt := media_alt f |}
            | None => None
            end
        | _ => None
        end
    | None => None
    end in
  match from_featured with
  | Some r => Some r
  | None => first_media media
  end.

Definition variant_prefix : string := "gid://shopify/ProductVariant/".

(** [simplifyProductVariantGid] *)
Definition simplifyProductVariantGid (id : string) : string := replace_first variant_prefix "" id.

Record Money := { amount : string; currencyCode : string }.

Record GQLProductVariantNode := {
  vn_id : string;
  vn_title : string;
  availableForSale : bool;
  inventoryQuantity : option Z;
  vn_price : string;
  vn_sku : option string;
  selectedOptions : list (string * string)
}.

Record GQLProductNode := {
  g_id : string;
  g_title : string;
  g_description : option string;
  g_handle : option string;
  g_productType : option string;
  g_vendor : option string;
  g_tags : list string;
  minVariantPrice : Money;
  maxVariantPrice : Money;
  featuredMedia : option MediaNode;
  media : list MediaNode;
  g_variants : list GQLProductVariantNode
}.

Section Normalise.
(** The numbers produced by [parseFloat]; floating point is left abstract. *)
Variable Num : Type.
Variable parseFloat : string -> Num.

Record UnifiedVariant := {
  uv_id : string;
  uv_title : string;
  uv_price : Num;
  available : bool;
  inventory_quantity : option Z;
  uv_options : list (string * string)
}.

Record PriceRange := { pr_min : Num; pr_max : Num; currency : string }.

Record UnifiedProduct := {
  u_id : string;
  u_title : string;
  u_description : option string;
  u_source : string;
  price_range : PriceRange;
  images : list ImageObject;
  u_variants : list UnifiedVariant;
  u_handle : option string;
  product_type : option string;
  u_vendor : option string;
  tags : list string;
  source_id : string;
  sync_status : string
}.

(** [generateOptions]: the selected options, then [SKU] when the sku is truthy. *)
Definition generateOptions (node : GQLProductVariantNode) : list (string * string) :=
  selectedOptions node ++
  match truthy_str (vn_sku node) with Some s => [("SKU", s)] | None => [] end.

Definition mapVariant (node : GQLProductVariantNode) : UnifiedVariant :=
  {| uv_id := simplifyProductVariantGid (vn_id node); uv_title := vn_title node;
     uv_price := parseFloat (vn_price node); available := availableForSale node;
     inventory_quantity := inventoryQuantity node; uv_options := generateOptions node |}.

(** [mapUnifiedProduct] *)
Definition mapUnifiedProduct (p : GQLProductNode) : UnifiedProduct :=
  let primary := extractPrimaryImage (featuredMedia p) (media p) in
  {| u_id := simplifyProductGid (g_id p); u_title := g_title p; u_description := g_description p;
     u_source := "shopify";
     price_range := {| pr_min := parseFloat (amount (minVariantPrice p));
                       pr_max := parseFloat (amount (maxVariantPrice p));
                       currency := currencyCode (minVariantPrice p) |};
     images := match primary with Some i => [i] | None => [] end;
     u_variants := map mapVariant (g_variants p);
     u_handle := g_handle p; product_type := g_productType p; u_vendor := g_vendor p;
     tags := g_tags p;
     source_id := simplifyProductGid (g_id p); sync_status := "synced" |}.
End Normalise.

Arguments mapVariant {Num}.
Arguments mapUnifiedProduct {Num}.
Arguments images {Num}.
Arguments u_variants {Num}.
Arguments u_id {Num}.
Arguments uv_options {Num}.
Arguments uv_id {Num}.

(** ** Locations *)

Record StoreLocation := { loc_id : string; loc_name : string; isActive : bool; fulfillsOnlineOrders : bool }.

Record LocationsConn := { loc_edges : list StoreLocation }.
Record LocationsData := { locations_of : option LocationsConn }.

(** [locations]: [data?.locations?.edges.map(... simplifyGid ...) ?? []] *)
Definition locations (reply : gql LocationsData) : res (list StoreLocation) :=
  match reply with
  | GThrow m => Err m
  | GResp d _ =>
      match match d with Some ld => locations_of ld | None => None end with
      | Some c => Ok (map (fun n => {| loc_id := simplifyGid (loc_id n); loc_name := loc_name n;
                                      isActive := isActive n;
                                      fulfillsOnlineOrders := fulfillsOnlineOrders n |}) (loc_edges c))
      | None => Ok []
      end
  end.

(** ** Sort parameters ([makeSortSchema] of store.dto.ts) *)

(** [s.split(',')] *)
Fixpoint split_comma (s : string) : list string :=
  match s with
  | EmptyString => [EmptyString]
  | String c s' =>
      if Ascii.eqb c ","%char then EmptyString :: split_comma s'
      else match split_comma s' with
           | w :: ws => String c w :: ws
           | [] => [String c EmptyString]
           end
  end.

(** [toLowerCase] on ASCII letters. *)
Definition lower_char (c : ascii) : ascii :=
  let n := nat_of_ascii c in
  if (65 <=? n)%nat && (n <=? 90)%nat then ascii_of_nat (n + 32) else c.

Fixpoint toLowerCase (s : string) : string :=
  match s with
  | EmptyString => EmptyString
  | String c s' => String (lower_char c) (toLowerCase s')
  end.

(** One entry ["campo,dir?"] to [{ by, dir }]. *)
Definition parse_sort_entry (s : string) : string * sort_dir :=
  let parts := filter (fun x => negb (String.eqb x "")) (map trim (split_comma s)) in
  let by_raw := match parts with b :: _ => b | [] => "" end in
  let dir_raw := match parts with _ :: d :: _ => Some d | _ => None end in
  (by_raw, match dir_raw with
           | Some d => if String.eqb (toLowerCase d) "desc" then Desc else Asc
           | None => Asc
           end).

(** [productSortKeys = ['updated', 'name']] narrowed to [sort_by]. *)
Definition product_sort_key (k : string) : option sort_by :=
  if String.eqb k "updated" then Some SortUpdated
  else if String.eqb k "name" then Some SortName else None.

(** [makeSortSchema(productSortKeys)]: the raw value is absent, one string
    or an array of strings; the [refine] rejects any field not allowed. *)
Definition parse_product_sort (raw : option (string + list string)) : res (list SortItem) :=
  let arr := match raw with None => [] | Some (inl s) => [s] | Some (inr l) => l end in
  let parsed := map parse_sort_entry arr in
  let fix narrow (l : list (string * sort_dir)) : res (list SortItem) :=
    match l with
    | [] => Ok []
    | (b, d) :: rest =>
        match product_sort_key b, narrow rest with
        | Some k, Ok r => Ok ({| by_ := k; dir := d |} :: r)
        | _, _ => Err "Campo de orden no permitido"
        end
    end in
  narrow parsed.

(** ** A listing backend for the variants of one product *)

(** The first detail page of a product holding the variants [vs]:
    [DETAILS_VARIANTS_PAGE_SIZE] of them, with the cursor after the page. *)
Definition DETAILS_VARIANTS_PAGE_SIZE : nat := 250.

Definition variants_page {VNode : Type} (vs : list VNode) (start : nat) : VariantsConn VNode :=
  let es := firstn DETAILS_VARIANTS_PAGE_SIZE (skipn start vs) in
  {| v_edges := es;
     v_pageInfo := {| hasNextPage := (start + length es <? length vs)%nat;
                      endCursor := match es with [] => None | _ => Some (cursor_at (start + length es)) end |} |}.

(** PRODUCT_VARIANTS_PAGE served over [vs]; the cursor gives the position. *)
Definition variants_backend {VNode : Type} (vs : list VNode) (k : nat) (v : VariantsVars)
  : gql (VariantsPageData VNode) :=
  GResp (Some {| vp_product := Some {| vd_variants := Some (variants_page vs (pos_of (vv_after v))) |} |}) None.

(** * Properties *)

(** ** Helper lemmas on strings *)

Lemma strip_prefix_app : forall p s, strip_prefix p (p ++ s) = Some s.
Proof.
  induction p as [|c p IH]; intros s; simpl; [reflexivity|].
  rewrite Ascii.eqb_refl. apply IH.
Qed.

Lemma replace_first_prefix : forall p r s, replace_first p r (p ++ s) = r ++ s.
Proof.
  intros p r s. destruct p as [|c p]; simpl.
  - destruct s; reflexivity.
  - rewrite Ascii.eqb_refl, strip_prefix_app. reflexivity.
Qed.

Lemma strip_prefix_cons : forall a p b s,
  strip_prefix (String a p) (String b s) = if Ascii.eqb a b then strip_prefix p s else None.
Proof. reflexivity. Qed.

Lemma numeric_not_product_gid : forall v,
  is_numeric v = true -> startsWith v product_prefix = false.
Proof.
  intros [|c v] H; [discriminate|].
  unfold startsWith, product_prefix. rewrite strip_prefix_cons.
  destruct (Ascii.eqb "g" c) eqn:E; [|reflexivity].
  apply Ascii.eqb_eq in E; subst c. discriminate H.
Qed.

(** ** C3: the identifier codec *)

(** C3 (amended). For a bare numeric string [v], [ensureProductGid] wraps it
    into ["gid://shopify/Product/" ++ v] and [simplifyProductGid] gives back
    [v]. A value that already is a product GID ["gid://shopify/Product/" ++ s]
    passes through [ensureProductGid] unchanged, and [simplifyProductGid]
    maps it to its suffix [s], not to the value itself. *)
Theorem codec_roundtrip : forall v,
  (is_numeric v = true ->
     ensureProductGid v = Ok (product_prefix ++ v) /\
     simplifyProductGid (product_prefix ++ v) = v) /\
  (forall s, v = product_prefix ++ s ->
     ensureProductGid v = Ok v /\ simplifyProductGid v = s).
Proof.
  intros v; split.
  - intros H. unfold ensureProductGid. rewrite numeric_not_product_gid, H by exact H.
    split; [reflexivity|]. apply replace_first_prefix.
  - intros s ->. unfold ensureProductGid, startsWith. rewrite strip_prefix_app.
    split; [reflexivity|]. apply replace_first_prefix.
Qed.

Lemma codec_roundtrip_witness :
  ensureProductGid "42" = Ok "gid://shopify/Product/42" /\
  simplifyProductGid "gid://shopify/Product/42" = "42".
Proof. exact (proj1 (codec_roundtrip "42") eq_refl). Defined.

(** C3 (counterexample). The global id ["gid://shopify/Product/42"] is a
    valid product GID, yet the round trip yields ["42"], not the input. *)
Lemma codec_roundtrip_global_input :
  exists g, ensureProductGid "gid://shopify/Product/42" = Ok g /\
            simplifyProductGid g <> "gid://shopify/Product/42".
Proof. eexists; split; [reflexivity|]. vm_compute. discriminate. Qed.

(** ** C7: the query builder *)

(** C7. [buildShopifyQuery] is the single-space join of the free-text token
    followed by the filter tokens in the fixed order vendor, product_type,
    price:>=, price:<=, inventory_total:>0; and two requests with the same
    free text and filters give the same string, whatever their page, limit
    and sort. *)
Theorem buildShopifyQuery_deterministic : 
  (forall p, buildShopifyQuery p = String.concat " " (spec_query_tokens p)) /\
  (forall p1 p2, query p1 = query p2 -> filters p1 = filters p2 ->
     buildShopifyQuery p1 = buildShopifyQuery p2).
Proof.
  split.
  - intros [q pg lm so fs].
    unfold buildShopifyQuery, spec_query_tokens, push, opt_token; simpl.
    destruct (match fs with Some f => f | None => no_filters end) as [c pmin pmax av vd].
    simpl.
    destruct q as [q|]; [destruct (String.eqb (trim q) "")|];
      destruct (truthy_str vd); destruct (truthy_str c); destruct pmin; destruct pmax;
      try destruct av as [[|]|]; reflexivity.
  - intros p1 p2 Hq Hf. unfold buildShopifyQuery. rewrite Hq, Hf. reflexivity.
Qed.

Lemma buildShopifyQuery_deterministic_witness :
  buildShopifyQuery ex_params = buildShopifyQuery {| query := query ex_params; page := 3%Z;
     limit := 50%Z; sort := [{| by_ := SortName; dir := Desc |}]; filters := filters ex_params |}.
Proof. apply (proj2 buildShopifyQuery_deterministic); reflexivity. Defined.

(** ** C8: the health check *)

(** C8. [checkHealth] returns a status for every backend outcome: healthy
    when data is returned, warning when the answer has no data, and error
    carrying the thrown error's message when the request throws. *)
Theorem checkHealth_never_throws :
  (forall d e, status (checkHealth (GResp (Some d) e)) = Healthy) /\
  (forall e, checkHealth (GResp None e) =
             {| status := Warning; message := Some "No data returned from Shopify API" |}) /\
  (forall m, checkHealth (GThrow m) = {| status := HError; message := Some m |}).
Proof. repeat split. Qed.

(** ** C10: looking up a missing product *)

(** C10. For an identifier that [ensureProductGid] accepts, when the detail
    query answers with no product (a null [product] or no [data]),
    [findProduct] fails with "Shopify product not found", whatever the
    fuel given to the variant walk. *)
Theorem findProduct_missing_is_error :
  forall (VNode Rest Item : Type) (mapU : ProductNode VNode Rest -> Item)
         detail more fuel id gid e,
  ensureProductGid id = Ok gid ->
  (detail gid = GResp None e \/ detail gid = GResp (Some {| d_product := None |}) e) ->
  findProduct mapU detail more fuel id = Some (Err ("Shopify product not found: " ++ id)).
Proof.
  intros VNode Rest Item mapU detail more fuel id gid e Hid Hd.
  unfold findProduct. rewrite Hid. destruct Hd as [Hd|Hd]; rewrite Hd; reflexivity.
Qed.

Lemma findProduct_missing_is_error_witness :
  findProduct (VNode:=nat) (Rest:=unit) (Item:=unit) (fun _ => tt)
    (fun _ => GResp (Some {| d_product := None |}) None) (fun _ _ => GThrow "unused") 5 "7"
  = Some (Err "Shopify product not found: 7").
Proof.
  apply (findProduct_missing_is_error nat unit unit (fun _ => tt)
           (fun _ => GResp (Some {| d_product := None |}) None) (fun _ _ => GThrow "unused")
           5 "7" "gid://shopify/Product/7" None).
  - reflexivity.
  - right; reflexivity.
Defined.

(** ** C6: pages beyond the data *)

Lemma cursor_at_length : forall k, String.length (cursor_at k) = k.
Proof. induction k as [|k IH]; simpl; congruence. Qed.

Lemma limit_of_pos : forall p, (1 <= limit_of p)%Z.
Proof. intros p. unfold limit_of. apply Z.le_max_l. Qed.

Lemma page_of_pos : forall p, (1 <= page_of p)%Z.
Proof. intros p. unfold page_of. apply Z.le_max_l. Qed.

(** Over a listing of [data], a skip walk of [n >= 1] hops that starts at
    position [k] with [k + n * lim >= length data] meets [hasNextPage = false]. *)
Lemma skip_pages_dataset_out_of_range :
  forall (Node : Type) (data : list Node) (mk : option string -> SearchVars) lim n a,
  (forall a', first (mk a') = lim) -> (forall a', after (mk a') = a') ->
  (1 <= Z.to_nat lim)%nat -> (1 <= n)%nat ->
  (length data <= pos_of a + n * Z.to_nat lim)%nat ->
  skip_pages (dataset_backend data) mk n a = Ok (inl tt).
Proof.
  intros Node data mk lim n. induction n as [|n IH]; intros a Hf Ha Hl Hn Hlen; [lia|].
  simpl skip_pages. unfold dataset_backend. rewrite Hf, Ha. cbn [products p_pageInfo hasNextPage endCursor].
  set (es := firstn (Z.to_nat lim) (skipn (pos_of a) data)).
  assert (Hes : length es = Nat.min (Z.to_nat lim) (length data - pos_of a)).
  { unfold es. rewrite length_firstn, length_skipn. reflexivity. }
  destruct (pos_of a + length es <? length data)%nat eqn:Hlt; [|reflexivity].
  apply Nat.ltb_lt in Hlt.
  assert (Hlim : length es = Z.to_nat lim) by lia.
  destruct es as [|e es'] eqn:Ees; [simpl in Hlim; lia|].
  apply IH; auto.
  - destruct n; simpl in Hlen; lia.
  - simpl pos_of. rewrite cursor_at_length. simpl in Hlim, Hlen. lia.
Qed.

(** C6. Over a backend listing a fixed sequence of products, requesting a
    page [page >= 1] whose preceding pages already cover all the data,
    [(page - 1) * limit >= length data], yields [Ok] of an empty page with
    [hasNext = false] and [hasPrev = (page > 1)]: an empty result, never an
    error. For [page > 1] it is the early return of the skip walk, taken
    when a hop reports [hasNextPage = false]. *)
Theorem search_beyond_data_empty :
  forall (Node Item : Type) (mapU : Node -> Item) (data : list Node) params count_backend,
  (length data <= Z.to_nat (page_of params - 1) * Z.to_nat (limit_of params))%nat ->
  search mapU params count_backend (dataset_backend data) =
  Ok {| meta := {| total := countProducts count_backend params; m_page := page_of params;
                   m_limit := limit_of params; hasPrev := (page_of params >? 1)%Z;
                   hasNext := false |};
        items := [] |}.
Proof.
  intros Node Item mapU data params cb Hlen.
  pose proof (limit_of_pos params) as Hl.
  unfold search. destruct (mapSort params) as [sk rv].
  destruct (Z.to_nat (page_of params - 1)) as [|n] eqn:Hn.
  - simpl in Hlen. destruct data; [|simpl in Hlen; lia].
    simpl skip_pages. unfold dataset_backend. simpl. rewrite firstn_nil. reflexivity.
  - rewrite (skip_pages_dataset_out_of_range Node data _ (limit_of params)); try reflexivity; lia.
Qed.

Definition ex_page3 : ProductSearchParams :=
  {| query := None; page := 3%Z; limit := 2%Z; sort := []; filters := None |}.

Lemma search_beyond_data_empty_witness :
  search (fun n : nat => n) ex_page3 (fun _ => GResp (Some 3%Z) None) (dataset_backend [1; 2; 3]) =
  Ok {| meta := {| total := 3%Z; m_page := 3%Z; m_limit := 2%Z; hasPrev := true; hasNext := false |};
        items := [] |}.
Proof.
  apply (search_beyond_data_empty nat nat (fun n => n) [1; 2; 3] ex_page3 (fun _ => GResp (Some 3%Z) None)).
  vm_compute. lia.
Defined.

(** ** C9: the separate count query *)

(** C9. A failing count query (a throw, or an answer without data) never
    fails [search]: it behaves exactly as if the count were 0. Hence
    [search] can succeed with [total = 0] while [items] is non-empty. *)
Theorem search_count_failure_total_zero :
  (forall (Node Item : Type) (mapU : Node -> Item) params backend msg,
     search mapU params (fun _ => GThrow msg) backend =
     search mapU params (fun _ => GResp (Some 0%Z) None) backend) /\
  (forall (Node Item : Type) (mapU : Node -> Item) params backend e,
     search mapU params (fun _ => GResp None e) backend =
     search mapU params (fun _ => GResp (Some 0%Z) None) backend) /\
  (exists params msg (data : list nat) pg,
     search (fun n : nat => n) params (fun _ => GThrow msg) (dataset_backend data) = Ok pg /\
     total (meta pg) = 0%Z /\ items pg <> []).
Proof.
  split; [|split].
  - intros. unfold search.
    replace (countProducts (fun _ => GThrow msg) params)
      with (countProducts (fun _ => GResp (Some 0%Z) None) params) by reflexivity.
    reflexivity.
  - intros. unfold search.
    replace (countProducts (fun _ => GResp None e) params)
      with (countProducts (fun _ => GResp (Some 0%Z) None) params) by reflexivity.
    reflexivity.
  - exists {| query := None; page := 1%Z; limit := 10%Z; sort := []; filters := None |},
           "network down", [7; 8].
    eexists. split; [vm_compute; reflexivity|]. split; [reflexivity|]. discriminate.
Qed.

(** ** C4: the variant-overflow walk *)

Lemma fetch_loop_error_is_transport :
  forall (VNode : Type) backend id fuel k hasNext next (acc : list VNode) m,
  fetch_loop backend id fuel k hasNext next acc = Some (Err m) ->
  exists k' v, backend k' v = GThrow m.
Proof.
  intros VNode backend id fuel. induction fuel as [|fuel IH]; intros k hasNext next acc m H.
  - destruct hasNext; simpl in H; discriminate.
  - destruct hasNext; simpl in H; [|discriminate].
    destruct (backend k _) as [m'|d e] eqn:Eb.
    + inversion H; subst. eauto.
    + destruct d as [[[[[c|]]|]]|]; try discriminate. eapply IH; exact H.
Qed.

(** A backend whose every answer carries a variants chunk with
    [hasNextPage = true]: the walk is still running whatever the fuel. *)
Lemma fetch_loop_runs_forever :
  forall (VNode : Type) (backend : nat -> VariantsVars -> gql (VariantsPageData VNode)) id,
  (forall k v, exists c e,
     backend k v = GResp (Some {| vp_product := Some {| vd_variants := Some c |} |}) e /\
     hasNextPage (v_pageInfo c) = true) ->
  forall fuel k next acc, fetch_loop backend id fuel k true next acc = None.
Proof.
  intros VNode backend id Hb fuel. induction fuel as [|fuel IH]; intros k next acc; [reflexivity|].
  destruct (Hb k {| vv_id := id; vv_after := next |}) as (c & e & Eb & Hc).
  destruct c as [es [hn ec]]; simpl in Hc; subst hn.
  simpl. rewrite Eb. apply IH.
Qed.

(** C4 (amended). [fetchAdditionalVariants] has no stall detection: the
    only errors it can end with are transport throws of the backend, and
    when every answer reports [hasNextPage = true] (for instance the same
    end cursor over and over) it never returns: with any amount of fuel it
    is still issuing requests. *)
Theorem fetch_no_stall_detection :
  (forall (VNode : Type) backend fuel id after (m : string),
     @fetchAdditionalVariants VNode backend fuel id after = Some (Err m) ->
     exists k v, backend k v = GThrow m) /\
  (forall (VNode : Type) (backend : nat -> VariantsVars -> gql (VariantsPageData VNode)) id after,
     (forall k v, exists c e,
        backend k v = GResp (Some {| vp_product := Some {| vd_variants := Some c |} |}) e /\
        hasNextPage (v_pageInfo c) = true) ->
     forall fuel, fetchAdditionalVariants backend fuel id after = None).
Proof.
  split.
  - intros VNode backend fuel id after m H. eapply fetch_loop_error_is_transport. exact H.
  - intros VNode backend id after Hb fuel. apply fetch_loop_runs_forever. exact Hb.
Qed.

(** A backend that answers every variants request with the same page: one
    variant, [hasNextPage = true], end cursor ["c1"]. *)
Definition stalled_backend : nat -> VariantsVars -> gql (VariantsPageData unit) :=
  fun _ _ => GResp (Some {| vp_product := Some {| vd_variants := Some
                {| v_edges := [tt]; v_pageInfo := {| hasNextPage := true; endCursor := Some "c1" |} |} |} |})
              None.

Lemma fetch_no_stall_detection_witness :
  fetchAdditionalVariants stalled_backend 1000 "gid://shopify/Product/1" (Some "c1") = None.
Proof.
  apply (proj2 fetch_no_stall_detection unit stalled_backend "gid://shopify/Product/1" (Some "c1")).
  intros k v. eexists _, None. split; reflexivity.
Defined.

(** C4 (counterexample). Against [stalled_backend], whose consecutive
    answers repeat the end cursor ["c1"] with [hasNextPage = true], the walk
    never fails, with a stall error or any other. *)
Lemma fetch_stalled_never_fails :
  ~ exists fuel m,
      fetchAdditionalVariants stalled_backend fuel "gid://shopify/Product/1" (Some "c1") = Some (Err m).
Proof.
  intros (fuel & m & H). unfold fetchAdditionalVariants in H.
  rewrite fetch_loop_runs_forever in H; [discriminate|].
  intros k v. eexists _, None. split; reflexivity.
Qed.

(** ** C5: validation of a creation request (the live [CreateProductSchema]) *)

Module StoreToolDtoFacts.
Import StoreToolDto.

Section Keys.
Variable localeCompare : string -> string -> Z.
Variable ns : list string.
Hypothesis Hcmp : localeCompare_strict localeCompare ns.

Let le_name (a b : ProductOptionValue) : Prop := (localeCompare (optionName a) (optionName b) <= 0)%Z.
Let in_ns (a : ProductOptionValue) : Prop := In (optionName a) ns.

Lemma insert_by_name_perm : forall x l, Permutation (x :: l) (insert_by_name localeCompare x l).
Proof.
  intros x l. induction l as [|y l IH]; [reflexivity|].
  cbn [insert_by_name]. destruct (0 <? _)%Z; [|reflexivity].
  eapply perm_trans; [apply perm_swap|]. apply perm_skip, IH.
Qed.

Lemma sort_by_name_perm : forall l, Permutation l (sort_by_name localeCompare l).
Proof.
  induction l as [|x l IH]; [reflexivity|].
  cbn [sort_by_name]. eapply perm_trans; [apply perm_skip, IH|]. apply insert_by_name_perm.
Qed.

Lemma insert_by_name_sorted : forall x l,
  in_ns x -> Forall in_ns l -> StronglySorted le_name l ->
  StronglySorted le_name (insert_by_name localeCompare x l).
Proof.
  destruct Hcmp as (_ & Hsym & Htrans).
  intros x l. induction l as [|y l IH]; intros Hx Hl Hs.
  - constructor; constructor.
  - inversion Hl as [|? ? Hy Hl']; subst. inversion Hs as [|? ? Hs' Hf]; subst.
    cbn [insert_by_name]. destruct (0 <? localeCompare (optionName x) (optionName y))%Z eqn:E.
    + apply Z.ltb_lt in E. constructor; [apply IH; assumption|].
      apply Forall_forall. intros z Hz.
      apply (Permutation_in _ (Permutation_sym (insert_by_name_perm x l))) in Hz.
      destruct Hz as [<-|Hz].
      * unfold le_name. apply Z.lt_le_incl, (proj2 (Hsym _ _ Hy Hx)), E.
      * exact (proj1 (Forall_forall _ _) Hf z Hz).
    + apply Z.ltb_ge in E. constructor; [constructor; assumption|].
      constructor; [exact E|].
      apply Forall_forall. intros z Hz.
      apply (Htrans _ (optionName y)); [exact Hx|exact Hy| |exact E|].
      * exact (proj1 (Forall_forall _ _) Hl' z Hz).
      * exact (proj1 (Forall_forall _ _) Hf z Hz).
Qed.

Lemma sort_by_name_sorted : forall l, Forall in_ns l -> StronglySorted le_name (sort_by_name localeCompare l).
Proof.
  induction l as [|x l IH]; intros Hl; [constructor|].
  inversion Hl as [|? ? Hx Hl']; subst. cbn [sort_by_name].
  apply insert_by_name_sorted; [exact Hx| |exact (IH Hl')].
  apply Forall_forall. intros z Hz.
  apply (Permutation_in _ (Permutation_sym (sort_by_name_perm l))) in Hz.
  exact (proj1 (Forall_forall _ _) Hl' z Hz).
Qed.

(** Two strongly sorted arrangements of the same values with distinct
    names are the same list. *)
Lemma sorted_perm_unique : forall l1 l2,
  StronglySorted le_name l1 -> StronglySorted le_name l2 -> Permutation l1 l2 ->
  NoDup (map optionName l1) -> Forall in_ns l1 -> l1 = l2.
Proof.
  destruct Hcmp as (Hneq & Hsym & _).
  induction l1 as [|a l1 IH]; intros l2 S1 S2 P N F.
  - symmetry. apply Permutation_nil, P.
  - destruct l2 as [|b l2]; [apply Permutation_sym, Permutation_nil_cons in P; contradiction|].
    inversion S1 as [|? ? S1' F1]; subst. inversion S2 as [|? ? S2' F2]; subst.
    inversion N as [|? ? Na N']; subst. inversion F as [|? ? Fa F']; subst.
    assert (a = b) as <-.
    { destruct (Permutation_in a P (in_eq _ _)) as [->|Ha2]; [reflexivity|].
      destruct (Permutation_in b (Permutation_sym P) (in_eq _ _)) as [->|Hb1]; [reflexivity|].
      exfalso.
      assert (Fb : in_ns b) by exact (proj1 (Forall_forall _ _) F' b Hb1).
      assert (Hab : le_name a b) by exact (proj1 (Forall_forall _ _) F1 b Hb1).
      assert (Hba : le_name b a) by exact (proj1 (Forall_forall _ _) F2 a Ha2).
      assert (Hne : optionName a <> optionName b).
      { intros E. apply Na. rewrite E. apply in_map, Hb1. }
      specialize (Hneq _ _ Fa Fb Hne). unfold le_name in *.
      assert (Hlt : (localeCompare (optionName a) (optionName b) < 0)%Z) by lia.
      apply (Hsym _ _ Fa Fb) in Hlt. lia. }
    f_equal. apply IH; try assumption. apply Permutation_cons_inv with a, P.
Qed.

(** Two variants whose option values are a permutation of each other, with
    distinct names, get the same key. *)
Lemma variant_key_perm : forall vi vj,
  ns = map optionName (optionValues vi) ->
  Permutation (optionValues vi) (optionValues vj) ->
  NoDup (map optionName (optionValues vi)) ->
  variant_key localeCompare vi = variant_key localeCompare vj.
Proof.
  intros vi vj Hns P N. unfold variant_key.
  assert (Fi : Forall in_ns (optionValues vi)).
  { apply Forall_forall. intros z Hz. unfold in_ns. rewrite Hns. apply in_map, Hz. }
  assert (Fj : Forall in_ns (optionValues vj)).
  { apply Forall_forall. intros z Hz. apply (Permutation_in _ (Permutation_sym P)) in Hz.
    exact (proj1 (Forall_forall _ _) Fi z Hz). }
  assert (Pi := sort_by_name_perm (optionValues vi)).
  assert (Pj := sort_by_name_perm (optionValues vj)).
  apply sorted_perm_unique.
  - apply sort_by_name_sorted, Fi.
  - apply sort_by_name_sorted, Fj.
  - eapply perm_trans; [apply Permutation_sym, Pi|]. eapply perm_trans; [apply P|]. exact Pj.
  - apply (Permutation_NoDup (Permutation_map optionName Pi)), N.
  - apply Forall_forall. intros z Hz. apply (Permutation_in _ (Permutation_sym Pi)) in Hz.
    exact (proj1 (Forall_forall _ _) Fi z Hz).
Qed.

End Keys.

Lemma key_eqb_refl : forall k, key_eqb k k = true.
Proof.
  induction k as [|a k IH]; [reflexivity|]. cbn [key_eqb]. rewrite IH.
  unfold pov_eqb. rewrite !String.eqb_refl. reflexivity.
Qed.

(** The walk fails once a key already in [seen] comes up again. *)
Lemma no_duplicate_variants_seen : forall cmp vs seen v,
  In (variant_key cmp v) seen -> In v vs -> no_duplicate_variants cmp seen vs = false.
Proof.
  intros cmp vs. induction vs as [|w vs IH]; intros seen v Hk Hv; [contradiction|].
  cbn [no_duplicate_variants]. destruct (existsb _ seen) eqn:E; [reflexivity|].
  destruct Hv as [<-|Hv].
  - exfalso. assert (existsb (key_eqb (variant_key cmp w)) seen = true) as E'
      by (apply existsb_exists; exists (variant_key cmp w); split; [exact Hk|apply key_eqb_refl]).
    congruence.
  - apply (IH _ v); [right; exact Hk|exact Hv].
Qed.

Lemma no_duplicate_variants_pair : forall cmp pre vi mid vj post seen,
  variant_key cmp vi = variant_key cmp vj ->
  no_duplicate_variants cmp seen (pre ++ vi :: mid ++ vj :: post)%list = false.
Proof.
  intros cmp pre vi mid vj post. induction pre as [|w pre IH]; intros seen Hk.
  - cbn [app no_duplicate_variants]. destruct (existsb _ seen); [reflexivity|].
    apply (no_duplicate_variants_seen _ _ _ vj); [left; exact Hk|].
    apply in_or_app. right. apply in_eq.
  - cbn [app no_duplicate_variants]. destruct (existsb _ seen); [reflexivity|]. apply IH, Hk.
Qed.

Lemma nth_error_two : forall (A : Type) (l : list A) i j x y,
  (i < j)%nat -> nth_error l i = Some x -> nth_error l j = Some y ->
  exists pre mid post, l = (pre ++ x :: mid ++ y :: post)%list.
Proof.
  intros A l i j x y Hij Hi Hj.
  destruct (nth_error_split l i Hi) as (l1 & l2 & -> & Hl1).
  rewrite nth_error_app2 in Hj by lia.
  replace (j - length l1)%nat with (S (j - length l1 - 1)) in Hj by lia.
  cbn [nth_error] in Hj.
  destruct (nth_error_split l2 _ Hj) as (m1 & m2 & -> & _).
  exists l1, m1, m2. reflexivity.
Qed.

Lemma CreateProductSchema_ok_parts : forall is_url cmp data,
  CreateProductSchema_ok is_url cmp data = true ->
  options_consistent data = true /\ no_duplicate_variants cmp [] (variants data) = true.
Proof.
  intros is_url cmp data H. unfold CreateProductSchema_ok in H.
  repeat match type of H with
         | (_ && _)%bool = true => apply andb_prop in H
         | _ /\ _ => destruct H as [H ?]
         end.
  split; assumption.
Qed.

Lemma options_consistent_undeclared : forall data v ov,
  In v (variants data) -> In ov (optionValues v) ->
  match optionMap_lookup (productOptions data) (optionName ov) with
  | None => True
  | Some vals => ~ In (ov_name ov) vals
  end ->
  options_consistent data = false.
Proof.
  intros data v ov Hv Hov Hbad. unfold options_consistent.
  destruct ((0 <? length (variants data))%nat && (length (productOptions data) =? 0)%nat)%bool;
    [reflexivity|].
  destruct (forallb _ (variants data)) eqn:Hall; [|reflexivity].
  exfalso. rewrite forallb_forall in Hall. specialize (Hall v Hv).
  rewrite forallb_forall in Hall. specialize (Hall ov Hov).
  destruct (optionMap_lookup _ _); [|discriminate].
  apply Hbad. apply existsb_exists in Hall as (y & Hy & E).
  apply String.eqb_eq in E. subst. exact Hy.
Qed.

End StoreToolDtoFacts.

(** C5. [CreateProductSchema] (the schema of [store.tool.ts], with its
    [superRefine]) rejects every request in which two variants select the
    same option-value combination: the same list of values, or the same
    values listed in another order when their option names are distinct and
    [localeCompare] orders them strictly (the sort behind the [JSON.stringify]
    key then puts both lists in one order). It also rejects every request in
    which a variant references an option group that is not declared, or a
    value not listed in that group. *)
Theorem create_schema_rejects_duplicates_and_undeclared :
  forall (is_url : string -> bool) (localeCompare : string -> string -> Z)
         (data : StoreToolDto.CreateProduct),
  (forall i j vi vj,
     (i < j)%nat ->
     nth_error (StoreToolDto.variants data) i = Some vi ->
     nth_error (StoreToolDto.variants data) j = Some vj ->
     (StoreToolDto.optionValues vj = StoreToolDto.optionValues vi
      \/ (Permutation (StoreToolDto.optionValues vi) (StoreToolDto.optionValues vj)
          /\ NoDup (map optionName (StoreToolDto.optionValues vi))
          /\ StoreToolDto.localeCompare_strict localeCompare
               (map optionName (StoreToolDto.optionValues vi)))) ->
     StoreToolDto.CreateProductSchema_ok is_url localeCompare data = false)
  /\
  (forall v ov,
     In v (StoreToolDto.variants data) -> In ov (StoreToolDto.optionValues v) ->
     match optionMap_lookup (StoreToolDto.productOptions data) (optionName ov) with
     | None => True
     | Some vals => ~ In (ov_name ov) vals
     end ->
     StoreToolDto.CreateProductSchema_ok is_url localeCompare data = false).
Proof.
  intros is_url cmp data. split.
  - intros i j vi vj Hij Hi Hj Hsame.
    destruct (StoreToolDto.CreateProductSchema_ok is_url cmp data) eqn:Hok; [|reflexivity].
    apply StoreToolDtoFacts.CreateProductSchema_ok_parts in Hok as [_ Hnd].
    destruct (StoreToolDtoFacts.nth_error_two _ _ _ _ _ _ Hij Hi Hj) as (pre & mid & post & Hl).
    rewrite Hl, StoreToolDtoFacts.no_duplicate_variants_pair in Hnd; [discriminate|].
    destruct Hsame as [E|(P & N & C)].
    + unfold StoreToolDto.variant_key. rewrite E. reflexivity.
    + apply (StoreToolDtoFacts.variant_key_perm cmp _ C); [reflexivity|exact P|exact N].
  - intros v ov Hv Hov Hbad.
    destruct (StoreToolDto.CreateProductSchema_ok is_url cmp data) eqn:Hok; [|reflexivity].
    apply StoreToolDtoFacts.CreateProductSchema_ok_parts in Hok as [Hoc _].
    rewrite (StoreToolDtoFacts.options_consistent_undeclared data v ov Hv Hov Hbad) in Hoc.
    discriminate.
Qed.

Module StoreToolDtoExample.
Import StoreToolDto.

(** [localeCompare] on plain ASCII names, as a sign. *)
Definition cmp_ascii (a b : string) : Z :=
  match String.compare a b with Lt => (-1)%Z | Eq => 0%Z | Gt => 1%Z end.

Definition pov (n v : string) : ProductOptionValue := {| optionName := n; ov_name := v |}.

Definition variant_of (ovs : list ProductOptionValue) : ProductVariant :=
  {| optionValues := ovs; price := 10; compareAtPrice := None; inventoryItem := None;
     inventoryQuantities := None; sku := None; file := None |}.

Definition request_of (vs : list ProductVariant) : CreateProduct :=
  {| cp_title := "T"; descriptionHtml := None; productType := None; cp_vendor := None;
     productOptions := [{| po_name := "Color"; po_values := ["Red"] |};
                        {| po_name := "Size"; po_values := ["S"; "M"] |}];
     variants := vs; files := [] |}.

(** Red/S twice, the second time with the options listed the other way round. *)
Definition dup_request : CreateProduct :=
  request_of [variant_of [pov "Color" "Red"; pov "Size" "S"];
              variant_of [pov "Size" "S"; pov "Color" "Red"]].

(** Red/S and Red/M. *)
Definition distinct_request : CreateProduct :=
  request_of [variant_of [pov "Color" "Red"; pov "Size" "S"];
              variant_of [pov "Size" "M"; pov "Color" "Red"]].

Lemma cmp_ascii_strict : localeCompare_strict cmp_ascii ["Color"; "Size"].
Proof.
  split; [|split].
  - intros a b Ha Hb Hne.
    destruct Ha as [<-|[<-|[]]]; destruct Hb as [<-|[<-|[]]];
      (congruence || (vm_compute; discriminate)).
  - intros a b Ha Hb.
    destruct Ha as [<-|[<-|[]]]; destruct Hb as [<-|[<-|[]]]; vm_compute; split; congruence.
  - intros a b c Ha Hb Hc.
    destruct Ha as [<-|[<-|[]]]; destruct Hb as [<-|[<-|[]]]; destruct Hc as [<-|[<-|[]]];
      vm_compute; congruence.
Qed.

End StoreToolDtoExample.

(** C5 on a concrete request: the reordered duplicate is rejected, and the
    same request with Size=M in the second variant is accepted. *)
Lemma create_schema_rejects_duplicates_and_undeclared_witness :
  StoreToolDto.CreateProductSchema_ok (fun _ => true) StoreToolDtoExample.cmp_ascii
    StoreToolDtoExample.dup_request = false
  /\ StoreToolDto.CreateProductSchema_ok (fun _ => true) StoreToolDtoExample.cmp_ascii
       StoreToolDtoExample.distinct_request = true.
Proof.
  split; [|vm_compute; reflexivity].
  apply (proj1 (create_schema_rejects_duplicates_and_undeclared (fun _ => true)
                  StoreToolDtoExample.cmp_ascii StoreToolDtoExample.dup_request) 0 1
           (StoreToolDtoExample.variant_of [StoreToolDtoExample.pov "Color" "Red"; StoreToolDtoExample.pov "Size" "S"])
           (StoreToolDtoExample.variant_of [StoreToolDtoExample.pov "Size" "S"; StoreToolDtoExample.pov "Color" "Red"])).
  - lia.
  - reflexivity.
  - reflexivity.
  - right. split; [apply perm_swap|]. split.
    + vm_compute. constructor; [intros [E|[]]; discriminate|constructor; [intros []|constructor]].
    + exact StoreToolDtoExample.cmp_ascii_strict.
Defined.

(** ** C1 and C2: the creation orchestrator *)

Definition size_variant (n : nat) : ProductVariant :=
  {| optionValues := [{| optionName := "Size"; ov_name := z_to_string (Z.of_nat n) |}];
     price := 10; compareAtPrice := None; inventoryItem := None;
     inventoryQuantities := None; sku := None |}.

(** A well-formed request with [n] variants, Size = 1 .. n. *)
Definition sized_request (n : nat) : CreateProduct :=
  {| cp_title := "T"; descriptionHtml := None; productType := None; cp_vendor := None;
     productOptions := [{| po_name := "Size"; po_values := map (fun k => z_to_string (Z.of_nat k)) (seq 1 n) |}];
     variants := map size_variant (seq 1 n) |}.

(** Backend answers: an immediate product, an operation already COMPLETE,
    an operation still ACTIVE. *)
Definition immediate_reply : gql ProductCreateResponse :=
  GResp (Some {| cr_product := Some "gid://shopify/Product/42"; productSetOperation := None;
                 userErrors := [] |}) None.

Definition complete_op_reply : gql ProductCreateResponse :=
  GResp (Some {| cr_product := None;
                 productSetOperation := Some {| op_id := "gid://shopify/ProductSetOperation/1";
                                                op_status_of := COMPLETE;
                                                op_product := Some "gid://shopify/Product/42" |};
                 userErrors := [] |}) None.

Definition active_op_reply : gql ProductCreateResponse :=
  GResp (Some {| cr_product := None;
                 productSetOperation := Some {| op_id := "gid://shopify/ProductSetOperation/1";
                                                op_status_of := ACTIVE; op_product := None |};
                 userErrors := [] |}) None.

(** Polls answer ACTIVE, ACTIVE, then COMPLETE with the product. *)
Definition polls_then_complete (k : nat) (_ : string) : gql PollData :=
  GResp (Some {| productOperation := Some
    (if (k <? 2)%nat
     then {| po_id := "gid://shopify/ProductSetOperation/1"; po_status := ACTIVE;
             po_product := None; po_userErrors := [] |}
     else {| po_id := "gid://shopify/ProductSetOperation/1"; po_status := COMPLETE;
             po_product := Some "gid://shopify/Product/42"; po_userErrors := [] |}) |}) None.

Definition elapsed_ms (k : nat) : Z := (1500 * Z.of_nat k)%Z.

Definition no_polls (_ : nat) (_ : string) : gql PollData := GThrow "no poll expected".

(** C1 (counterexample). A request of 3 variants is sent with the
    synchronous hint; the backend answers asynchronously with an operation
    already COMPLETE. [create] does not take that path: it fails. *)
Lemma create_async_reply_to_sync_hint_fails :
  create (fun _ _ => complete_op_reply) no_polls elapsed_ms 10 (sized_request 3)
  = Some (Err no_reach_msg).
Proof. vm_compute. reflexivity. Qed.

(** C1 (amended). [create] takes the execution mode from its own size hint
    (at most 10 variants: synchronous), not from the shape of the answer.
    For an answer without errors: with the hint it returns the simplified
    id of an immediate product and fails when there is none, whatever
    operation handle is present; without the hint it follows the operation
    handle (COMPLETE at once, or polling) and fails when there is none,
    whatever immediate product is present. So an answer with neither shape
    fails. *)
Theorem create_mode_from_hint :
  forall mutate poll elapsed fuel dto r,
  mutate dto (length (variants dto) <=? 10)%nat = GResp (Some r) None ->
  userErrors r = [] ->
  ((length (variants dto) <= 10)%nat -> forall pid, cr_product r = Some pid ->
     create mutate poll elapsed fuel dto = Some (Ok (simplifyGid pid))) /\
  ((length (variants dto) <= 10)%nat -> cr_product r = None ->
     create mutate poll elapsed fuel dto = Some (Err no_reach_msg)) /\
  ((10 < length (variants dto))%nat -> productSetOperation r = None ->
     create mutate poll elapsed fuel dto = Some (Err no_reach_msg)) /\
  ((10 < length (variants dto))%nat -> forall op pid, productSetOperation r = Some op ->
     op_status_of op = COMPLETE -> op_product op = Some pid ->
     create mutate poll elapsed fuel dto = Some (Ok pid)) /\
  ((10 < length (variants dto))%nat -> forall op, productSetOperation r = Some op ->
     op_status_of op <> COMPLETE ->
     create mutate poll elapsed fuel dto = waitForProductOperation poll elapsed (op_id op) fuel).
Proof.
  intros mutate poll elapsed fuel dto r Hm Hu.
  unfold create. rewrite Hm, Hu.
  repeat split.
  - intros Hle pid Hp. apply Nat.leb_le in Hle. rewrite Hle, Hp. reflexivity.
  - intros Hle Hp. apply Nat.leb_le in Hle. rewrite Hle, Hp. reflexivity.
  - intros Hlt Ho. assert (E : (length (variants dto) <=? 10)%nat = false) by (apply Nat.leb_gt; lia).
    rewrite E, Ho. destruct (cr_product r); reflexivity.
  - intros Hlt op pid Ho Hs Hp.
    assert (E : (length (variants dto) <=? 10)%nat = false) by (apply Nat.leb_gt; lia).
    rewrite E, Ho, Hs, Hp. destruct (cr_product r); reflexivity.
  - intros Hlt op Ho Hs.
    assert (E : (length (variants dto) <=? 10)%nat = false) by (apply Nat.leb_gt; lia).
    rewrite E, Ho. destruct (op_status_of op); [| |contradiction];
      destruct (cr_product r); reflexivity.
Qed.

Lemma create_mode_from_hint_witness :
  create (fun _ _ => immediate_reply) no_polls elapsed_ms 10 (sized_request 3) = Some (Ok "42").
Proof.
  apply (proj1 (create_mode_from_hint (fun _ _ => immediate_reply) no_polls elapsed_ms 10
                  (sized_request 3)
                  {| cr_product := Some "gid://shopify/Product/42"; productSetOperation := None;
                     userErrors := [] |} eq_refl eq_refl)
           ltac:(vm_compute; lia) "gid://shopify/Product/42" eq_refl).
Defined.

(** C2 (code evaluation). On a well-formed request of 50 variants,
    [create] returns the global id ["gid://shopify/Product/42"], not its
    local form ["42"], both when the operation is COMPLETE at once and when
    it completes after two ACTIVE polls; the synchronous path of the same
    function, on 3 variants, does return ["42"]. *)
Theorem create_async_returns_global_id :
  validate_create (sized_request 50) = true /\
  create (fun _ _ => complete_op_reply) no_polls elapsed_ms 10 (sized_request 50)
    = Some (Ok "gid://shopify/Product/42") /\
  create (fun _ _ => active_op_reply) polls_then_complete elapsed_ms 10 (sized_request 50)
    = Some (Ok "gid://shopify/Product/42") /\
  create (fun _ _ => immediate_reply) no_polls elapsed_ms 10 (sized_request 3)
    = Some (Ok "42").
Proof. vm_compute. repeat split. Qed.

(** * Further properties of the service *)

(** ** Search *)

Lemma skip_pages_dataset_reach :
  forall (Node : Type) (data : list Node) (mk : option string -> SearchVars) lim n a,
  (forall a', first (mk a') = lim) -> (forall a', after (mk a') = a') ->
  (1 <= Z.to_nat lim)%nat ->
  (pos_of a + n * Z.to_nat lim < length data)%nat ->
  exists a', skip_pages (dataset_backend data) mk n a = Ok (inr a') /\
             pos_of a' = (pos_of a + n * Z.to_nat lim)%nat.
Proof.
  intros Node data mk lim n. induction n as [|n IH]; intros a Hf Ha Hl Hlen.
  - exists a. split; [reflexivity|lia].
  - simpl skip_pages. unfold dataset_backend. rewrite Hf, Ha. cbn [products p_pageInfo hasNextPage endCursor].
    set (es := firstn (Z.to_nat lim) (skipn (pos_of a) data)).
    assert (Hes : length es = Z.to_nat lim).
    { unfold es. rewrite length_firstn, length_skipn. simpl in Hlen. lia. }
    assert (Hlt : (pos_of a + length es <? length data)%nat = true).
    { apply Nat.ltb_lt. simpl in Hlen. lia. }
    rewrite Hlt.
    destruct es as [|e es'] eqn:Ees; [simpl in Hes; lia|].
    destruct (IH (Some (cursor_at (pos_of a + length (e :: es'))))) as (a' & H1 & H2); auto.
    + simpl pos_of. rewrite cursor_at_length. simpl in Hes, Hlen |- *. lia.
    + exists a'. split; [exact H1|]. rewrite H2. simpl pos_of. rewrite cursor_at_length.
      simpl in Hes |- *. lia.
Qed.

(** [search] over a backend listing [data] implements page-number
    pagination: when the requested page starts inside the data, its items
    are the [limit] nodes starting at [(page - 1) * limit], normalised, and
    [hasNext] tells whether more nodes follow the page. *)
Theorem search_dataset_page :
  forall (Node Item : Type) (mapU : Node -> Item) (data : list Node) params count_backend,
  let n := Z.to_nat (page_of params - 1) in
  let L := Z.to_nat (limit_of params) in
  (n * L < length data)%nat ->
  search mapU params count_backend (dataset_backend data) =
  Ok {| meta := {| total := countProducts count_backend params; m_page := page_of params;
                   m_limit := limit_of params; hasPrev := (page_of params >? 1)%Z;
                   hasNext := (S n * L <? length data)%nat |};
        items := map mapU (firstn L (skipn (n * L) data)) |}.
Proof.
  intros Node Item mapU data params cb n L Hlt.
  pose proof (limit_of_pos params) as Hl.
  assert (HL : (1 <= L)%nat) by (unfold L; lia).
  unfold search. destruct (mapSort params) as [sk rv]. fold n.
  destruct (skip_pages_dataset_reach Node data
              (fun a => {| first := limit_of params; after := a;
                           sv_query := query_var (buildShopifyQuery params);
                           sortKey := sk; reverse := rv |})
              (limit_of params) n None) as (a' & Hs & Hp); try reflexivity; [lia|simpl; lia|].
  rewrite Hs. unfold dataset_backend. cbn [first after products p_pageInfo p_edges hasNextPage].
  simpl pos_of in Hp. rewrite Hp. fold L.
  f_equal. f_equal. f_equal.
  rewrite length_firstn, length_skipn.
  apply Bool.eq_iff_eq_true. rewrite !Nat.ltb_lt. simpl. lia.
Qed.

Lemma search_dataset_page_witness :
  search (fun n : nat => n) {| query := None; page := 2%Z; limit := 2%Z; sort := []; filters := None |}
    (fun _ => GResp (Some 5%Z) None) (dataset_backend [1; 2; 3; 4; 5])
  = Ok {| meta := {| total := 5%Z; m_page := 2%Z; m_limit := 2%Z; hasPrev := true; hasNext := true |};
          items := [3; 4] |}.
Proof.
  apply (search_dataset_page nat nat (fun n => n) [1; 2; 3; 4; 5]
           {| query := None; page := 2%Z; limit := 2%Z; sort := []; filters := None |}
           (fun _ => GResp (Some 5%Z) None)).
  vm_compute. lia.
Defined.

(** Whatever the backend answers, a page returned by [search] has
    [1 <= page], [1 <= limit <= 250], [hasPrev = (page > 1)], and at most
    [limit] items when the backend returns at most [first] nodes. *)
Theorem search_meta_invariants :
  forall (Node Item : Type) (mapU : Node -> Item) params count_backend backend pg,
  search mapU params count_backend backend = Ok pg ->
  (1 <= m_page (meta pg))%Z /\ (1 <= m_limit (meta pg) <= 250)%Z /\
  hasPrev (meta pg) = (m_page (meta pg) >? 1)%Z /\
  ((forall v d e c, backend v = GResp (Some d) e -> products d = Some c ->
                    (length (p_edges c) <= Z.to_nat (first v))%nat) ->
   (Z.of_nat (length (items pg)) <= m_limit (meta pg))%Z).
Proof.
  intros Node Item mapU params cb backend pg H.
  pose proof (page_of_pos params) as Hp.
  assert (Hl : (1 <= limit_of params <= 250)%Z).
  { unfold limit_of. split; [apply Z.le_max_l|].
    apply Z.max_lub; [lia|apply Z.le_min_r]. }
  unfold search in H. destruct (mapSort params) as [sk rv].
  destruct (skip_pages _ _ _ _) as [[[]|a]|m]; [| |discriminate].
  - inversion H; subst; simpl. repeat split; try lia.
  - destruct (backend _) as [m|d e] eqn:Eb; [discriminate|].
    inversion H; subst; simpl. repeat split; try lia.
    intros Hb. destruct d as [pd|]; [|simpl; lia].
    destruct (products pd) as [c|] eqn:Ec; [|simpl; lia].
    rewrite length_map. specialize (Hb _ _ _ _ Eb Ec). simpl in Hb. lia.
Qed.

Definition ex_page3_result : ProductPage nat :=
  {| meta := {| total := 5%Z; m_page := 3%Z; m_limit := 2%Z; hasPrev := true; hasNext := false |};
     items := [5] |}.

Lemma search_meta_invariants_witness :
  search (fun n : nat => n) {| query := None; page := 3%Z; limit := 2%Z; sort := []; filters := None |}
    (fun _ => GResp (Some 5%Z) None) (dataset_backend [1; 2; 3; 4; 5]) = Ok ex_page3_result /\
  ((1 <= m_page (meta ex_page3_result))%Z /\ (1 <= m_limit (meta ex_page3_result) <= 250)%Z /\
   hasPrev (meta ex_page3_result) = (m_page (meta ex_page3_result) >? 1)%Z /\
   ((forall v d e c, dataset_backend [1; 2; 3; 4; 5] v = GResp (Some d) e -> products d = Some c ->
                     (length (p_edges c) <= Z.to_nat (first v))%nat) ->
    (Z.of_nat (length (items ex_page3_result)) <= m_limit (meta ex_page3_result))%Z)).
Proof.
  split; [vm_compute; reflexivity|].
  apply (search_meta_invariants nat nat (fun n => n)
           {| query := None; page := 3%Z; limit := 2%Z; sort := []; filters := None |}
           (fun _ => GResp (Some 5%Z) None) (dataset_backend [1; 2; 3; 4; 5])).
  vm_compute. reflexivity.
Defined.

(** ** Product details: the overflow walk collects every variant *)

Lemma pos_of_or_null_cursor : forall n, pos_of (or_null (Some (cursor_at n))) = n.
Proof. intros [|n]; [reflexivity|]. cbn [cursor_at or_null pos_of]. apply (cursor_at_length (S n)). Qed.

Lemma fetch_loop_variants_step :
  forall (VNode : Type) (vs : list VNode) id fuel k a acc,
  fetch_loop (variants_backend vs) id (S fuel) k true a acc =
  fetch_loop (variants_backend vs) id fuel (S k)
    (hasNextPage (v_pageInfo (variants_page vs (pos_of a))))
    (or_null (endCursor (v_pageInfo (variants_page vs (pos_of a)))))
    (acc ++ v_edges (variants_page vs (pos_of a)))%list.
Proof. reflexivity. Qed.

Lemma fetch_loop_variants_collect :
  forall (VNode : Type) (vs : list VNode) id fuel k a acc,
  (1 <= fuel)%nat -> (pos_of a <= length vs)%nat ->
  (length vs <= pos_of a + fuel * DETAILS_VARIANTS_PAGE_SIZE)%nat ->
  fetch_loop (variants_backend vs) id fuel k true a acc = Some (Ok (acc ++ skipn (pos_of a) vs)%list).
Proof.
  intros VNode vs id fuel. induction fuel as [|fuel IH]; intros k a acc Hf Hpos Hlen; [lia|].
  rewrite fetch_loop_variants_step. unfold variants_page.
  cbn [v_pageInfo v_edges hasNextPage endCursor].
  set (es := firstn DETAILS_VARIANTS_PAGE_SIZE (skipn (pos_of a) vs)).
  assert (Hes : length es = Nat.min DETAILS_VARIANTS_PAGE_SIZE (length vs - pos_of a)).
  { unfold es. rewrite length_firstn, length_skipn. reflexivity. }
  destruct (pos_of a + length es <? length vs)%nat eqn:Hlt.
  - apply Nat.ltb_lt in Hlt.
    assert (H250 : length es = DETAILS_VARIANTS_PAGE_SIZE) by lia.
    assert (Hsplit : skipn (pos_of a) vs = (es ++ skipn (pos_of a + DETAILS_VARIANTS_PAGE_SIZE) vs)%list).
    { unfold es. rewrite <- (firstn_skipn DETAILS_VARIANTS_PAGE_SIZE (skipn (pos_of a) vs)) at 1.
      rewrite skipn_skipn. f_equal. f_equal. lia. }
    destruct es as [|e es'] eqn:Ees; [simpl in H250; unfold DETAILS_VARIANTS_PAGE_SIZE in H250; lia|].
    rewrite IH.
    + f_equal. f_equal. rewrite Hsplit, app_assoc. rewrite pos_of_or_null_cursor, H250. reflexivity.
    + rewrite Nat.mul_succ_l in Hlen. destruct fuel; lia.
    + rewrite pos_of_or_null_cursor. lia.
    + rewrite pos_of_or_null_cursor, H250. rewrite Nat.mul_succ_l in Hlen. lia.
  - apply Nat.ltb_ge in Hlt. simpl.
    assert (Hall : es = skipn (pos_of a) vs).
    { unfold es. apply firstn_all2. rewrite length_skipn. lia. }
    rewrite Hall. destruct fuel; reflexivity.
Qed.

(** [findProduct] on a product whose variants are [vs], served in pages
    of 250 (the detail query gives the first page, PRODUCT_VARIANTS_PAGE the
    rest): with enough fuel for the overflow walk, the normalised node
    carries all of [vs], in backend order. *)
Theorem findProduct_collects_all_variants :
  forall (VNode Rest Item : Type) (mapU : ProductNode VNode Rest -> Item)
         (vs : list VNode) (rest : Rest) detail fuel id gid e,
  ensureProductGid id = Ok gid ->
  detail gid = GResp (Some {| d_product := Some {| pn_id := gid; pn_rest := rest;
                                                   pn_variants := variants_page vs 0 |} |}) e ->
  (1 <= fuel)%nat ->
  (length vs <= DETAILS_VARIANTS_PAGE_SIZE + fuel * DETAILS_VARIANTS_PAGE_SIZE)%nat ->
  findProduct mapU detail (variants_backend vs) fuel id =
  Some (Ok (mapU {| pn_id := gid; pn_rest := rest;
                    pn_variants := {| v_edges := vs; v_pageInfo := v_pageInfo (variants_page vs 0) |} |})).
Proof.
  intros VNode Rest Item mapU vs rest detail fuel id gid e Hid Hd Hf Hlen.
  unfold findProduct. rewrite Hid, Hd. cbn [d_product pn_variants pn_id pn_rest].
  unfold variants_page at 1 2 3. cbn [v_pageInfo hasNextPage endCursor v_edges]. simpl skipn.
  set (es := firstn DETAILS_VARIANTS_PAGE_SIZE vs).
  assert (Hes : length es = Nat.min DETAILS_VARIANTS_PAGE_SIZE (length vs)).
  { unfold es. apply length_firstn. }
  destruct (0 + length es <? length vs)%nat eqn:Hlt.
  - apply Nat.ltb_lt in Hlt.
    assert (H250 : length es = DETAILS_VARIANTS_PAGE_SIZE) by lia.
    destruct es as [|x es'] eqn:Ees; [simpl in H250; unfold DETAILS_VARIANTS_PAGE_SIZE in H250; lia|].
    unfold fetchAdditionalVariants.
    rewrite fetch_loop_variants_collect; rewrite ?pos_of_or_null_cursor; try lia.
    do 3 f_equal. rewrite H250, app_nil_l, Nat.add_0_l, <- Ees. unfold es. rewrite firstn_skipn. reflexivity.
  - apply Nat.ltb_ge in Hlt.
    assert (Hv : v_edges (variants_page vs 0) = vs).
    { unfold variants_page. cbn [v_edges skipn]. apply firstn_all2. lia. }
    rewrite Hv, app_nil_r. reflexivity.
Qed.

Definition product_300 : list nat := seq 0 300.

Definition detail_300 (gid : string) : gql (DetailData nat unit) :=
  GResp (Some {| d_product := Some {| pn_id := gid; pn_rest := tt;
                                      pn_variants := variants_page product_300 0 |} |}) None.

Lemma findProduct_collects_all_variants_witness :
  findProduct (fun n : ProductNode nat unit => length (v_edges (pn_variants n))) detail_300
    (variants_backend product_300) 1 "42" = Some (Ok 300).
Proof.
  apply (findProduct_collects_all_variants nat unit nat
           (fun n : ProductNode nat unit => length (v_edges (pn_variants n))) product_300 tt
           detail_300 1 "42" "gid://shopify/Product/42" None);
    [reflexivity|reflexivity|lia|vm_compute; lia].
Defined.

(** An identifier that is neither numeric nor a product GID (a handle such
    as ["red-shoe"]) is refused by [findProduct] before any request: the
    result is the same for every backend. *)
Theorem findProduct_unsupported_identifier :
  forall (VNode Rest Item : Type) (mapU : ProductNode VNode Rest -> Item) detail more fuel id,
  startsWith id product_prefix = false -> is_numeric id = false ->
  findProduct mapU detail more fuel id =
  Some (Err ("Unsupported Shopify product identifier: " ++ id)).
Proof.
  intros VNode Rest Item mapU detail more fuel id H1 H2.
  unfold findProduct, ensureProductGid. rewrite H1, H2. reflexivity.
Qed.

Lemma findProduct_unsupported_identifier_witness :
  findProduct (VNode:=nat) (Rest:=unit) (Item:=unit) (fun _ => tt) (fun _ => GThrow "unused")
    (fun _ _ => GThrow "unused") 3 "red-shoe"
  = Some (Err "Unsupported Shopify product identifier: red-shoe").
Proof. apply findProduct_unsupported_identifier; reflexivity. Defined.

(** ** Operation polling and product creation *)

Lemma wait_loop_ok_sound :
  forall poll elapsed operationId fuel k pid,
  wait_loop poll elapsed operationId fuel k = Some (Ok pid) ->
  exists j op, (k <= j)%nat /\
    poll j operationId = GResp (Some {| productOperation := Some op |}) None /\
    po_status op = COMPLETE /\ po_product op = Some pid /\ po_userErrors op = [].
Proof.
  intros poll elapsed opid fuel. induction fuel as [|fuel IH]; intros k pid H; [discriminate|].
  simpl in H. destruct (poll k opid) as [m|[[[op|]]|] [e|]] eqn:Ep; try discriminate.
  destruct op as [oid ost oprod ouerr]; cbn [po_userErrors po_status po_product] in H.
  destruct ouerr as [|u us]; [|discriminate].
  destruct ost.
  - destruct (elapsed k >? timeoutMs)%Z; [discriminate|].
    destruct (IH _ _ H) as [j [op' [Hj R]]]. exists j, op'. split; [lia|exact R].
  - destruct (elapsed k >? timeoutMs)%Z; [discriminate|].
    destruct (IH _ _ H) as [j [op' [Hj R]]]. exists j, op'. split; [lia|exact R].
  - destruct oprod as [p|]; [|discriminate].
    inversion H; subst. exists k. eexists. split; [lia|]. split; [exact Ep|]. repeat split.
Qed.

(** [waitForProductOperation] resolves to a product id only when one of
    its status polls answered, without GraphQL errors, an operation that is
    COMPLETE, carries no userErrors and names that very product. *)
Theorem waitForProductOperation_ok_sound :
  forall poll elapsed operationId fuel pid,
  waitForProductOperation poll elapsed operationId fuel = Some (Ok pid) ->
  exists j op,
    poll j operationId = GResp (Some {| productOperation := Some op |}) None /\
    po_status op = COMPLETE /\ po_product op = Some pid /\ po_userErrors op = [].
Proof.
  intros poll elapsed opid fuel pid H.
  destruct (wait_loop_ok_sound _ _ _ _ _ _ H) as [j [op [_ R]]]. exists j, op. exact R.
Qed.

(** Status polls: [CREATED] for the first [n] polls, then COMPLETE. *)
Definition poll_created_then (n : nat) (k : nat) (opid : string) : gql PollData :=
  GResp (Some {| productOperation := Some
    (if (k <? n)%nat
     then {| po_id := opid; po_status := CREATED; po_product := None; po_userErrors := [] |}
     else {| po_id := opid; po_status := COMPLETE; po_product := Some "gid://shopify/Product/7";
             po_userErrors := [] |}) |}) None.

Definition every_poll_ms (k : nat) : Z := (intervalMs * Z.of_nat k)%Z.

Lemma waitForProductOperation_ok_sound_witness :
  waitForProductOperation (poll_created_then 3) every_poll_ms "op1" 10 = Some (Ok "gid://shopify/Product/7") /\
  exists j op,
    poll_created_then 3 j "op1" = GResp (Some {| productOperation := Some op |}) None /\
    po_status op = COMPLETE /\ po_product op = Some "gid://shopify/Product/7" /\ po_userErrors op = [].
Proof.
  split; [vm_compute; reflexivity|].
  apply (waitForProductOperation_ok_sound (poll_created_then 3) every_poll_ms "op1" 10).
  vm_compute. reflexivity.
Defined.

Lemma wait_loop_times_out :
  forall poll elapsed operationId st K,
  st <> COMPLETE ->
  (forall j, exists op, poll j operationId = GResp (Some {| productOperation := Some op |}) None /\
                        po_status op = st /\ po_userErrors op = []) ->
  (forall j, (j < K)%nat -> (elapsed j <= timeoutMs)%Z) ->
  (elapsed K > timeoutMs)%Z ->
  forall m fuel k, (k + m = K)%nat -> (m < fuel)%nat ->
  wait_loop poll elapsed operationId fuel k =
  Some (Err ("Timed out waiting for productSet operation (last status: " ++ op_status_str st ++ ")")).
Proof.
  intros poll elapsed opid st K Hst Hpoll Hbefore Hat m.
  induction m as [|m IH]; intros fuel k Hk Hf; (destruct fuel as [|fuel]; [lia|]);
    destruct (Hpoll k) as [[oid ost oprod ouerr] [Ep [Es Eu]]];
    cbn [po_status po_userErrors] in Es, Eu; subst ost ouerr;
    cbn [wait_loop]; rewrite Ep; cbn [productOperation po_userErrors po_status];
    destruct st; try congruence.
  - replace k with K by lia.
    assert (Hg : (elapsed K >? timeoutMs)%Z = true) by (apply Z.gtb_lt; lia). rewrite Hg. reflexivity.
  - replace k with K by lia.
    assert (Hg : (elapsed K >? timeoutMs)%Z = true) by (apply Z.gtb_lt; lia). rewrite Hg. reflexivity.
  - assert (Hle : (elapsed k >? timeoutMs)%Z = false) by (rewrite Z.gtb_ltb; apply Z.ltb_ge; apply Hbefore; lia).
    rewrite Hle. apply IH; lia.
  - assert (Hle : (elapsed k >? timeoutMs)%Z = false) by (rewrite Z.gtb_ltb; apply Z.ltb_ge; apply Hbefore; lia).
    rewrite Hle. apply IH; lia.
Qed.

(** When every status poll answers the same unfinished status [st] with no
    userErrors, [waitForProductOperation] keeps polling and fails at the
    first check [K] whose elapsed time exceeds 120000 ms, naming [st]. *)
Theorem waitForProductOperation_times_out :
  forall poll elapsed operationId st K fuel,
  st <> COMPLETE ->
  (forall j, exists op, poll j operationId = GResp (Some {| productOperation := Some op |}) None /\
                        po_status op = st /\ po_userErrors op = []) ->
  (forall j, (j < K)%nat -> (elapsed j <= timeoutMs)%Z) ->
  (elapsed K > timeoutMs)%Z ->
  (K < fuel)%nat ->
  waitForProductOperation poll elapsed operationId fuel =
  Some (Err ("Timed out waiting for productSet operation (last status: " ++ op_status_str st ++ ")")).
Proof.
  intros poll elapsed opid st K fuel Hst Hpoll Hbefore Hat Hf.
  unfold waitForProductOperation. apply (wait_loop_times_out poll elapsed opid st K Hst Hpoll Hbefore Hat K);
    lia.
Qed.

Definition poll_always_active (k : nat) (opid : string) : gql PollData :=
  GResp (Some {| productOperation := Some
    {| po_id := opid; po_status := ACTIVE; po_product := None; po_userErrors := [] |} |}) None.

(** With a check every 1500 ms, the 81st check (elapsed 121500 ms) is the
    first past the limit. *)
Lemma waitForProductOperation_times_out_witness :
  waitForProductOperation poll_always_active every_poll_ms "op1" 100 =
  Some (Err "Timed out waiting for productSet operation (last status: ACTIVE)").
Proof.
  apply (waitForProductOperation_times_out poll_always_active every_poll_ms "op1" ACTIVE 81 100).
  - discriminate.
  - intros j. eexists. split; [reflexivity|split; reflexivity].
  - intros j Hj. unfold every_poll_ms, intervalMs, timeoutMs. lia.
  - vm_compute. reflexivity.
  - lia.
Defined.

(** [create] reports the mutation's userErrors, joined by [", "], whenever
    the reply carries any: whatever else the reply holds, no status is
    polled. *)
Theorem create_user_errors_reported :
  forall mutate poll elapsed fuel dto r,
  mutate dto (length (variants dto) <=? 10)%nat = GResp (Some r) None ->
  userErrors r <> [] ->
  create mutate poll elapsed fuel dto =
  Some (Err ("Failed to create product: " ++ String.concat ", " (userErrors r))).
Proof.
  intros mutate poll elapsed fuel dto r Hm Hu. unfold create. rewrite Hm.
  destruct (userErrors r) as [|u us]; [congruence|reflexivity].
Qed.

Definition rejected_response : ProductCreateResponse :=
  {| cr_product := Some "gid://shopify/Product/9";
     productSetOperation := None;
     userErrors := ["Title can't be blank"; "Price is invalid"] |}.

Definition rejected_reply : gql ProductCreateResponse := GResp (Some rejected_response) None.

Lemma create_user_errors_reported_witness :
  create (fun _ _ => rejected_reply) (fun _ _ => GThrow "unused") every_poll_ms 5 (sized_request 2) =
  Some (Err "Failed to create product: Title can't be blank, Price is invalid").
Proof.
  rewrite (create_user_errors_reported (fun _ _ => rejected_reply) (fun _ _ => GThrow "unused")
             every_poll_ms 5 (sized_request 2) rejected_response); [reflexivity|reflexivity|discriminate].
Defined.

(** [create] returns a product id only after a mutation reply with no
    GraphQL errors and no userErrors, and then only from one of three
    places: the [product] of a synchronous reply (as [simplifyGid] leaves
    it), the product of an operation already COMPLETE (asynchronous), or
    the product of a later COMPLETE status poll of the pending operation. *)
Theorem create_ok_sound :
  forall mutate poll elapsed fuel dto pid,
  create mutate poll elapsed fuel dto = Some (Ok pid) ->
  exists r, mutate dto (length (variants dto) <=? 10)%nat = GResp (Some r) None /\ userErrors r = [] /\
    ( ((length (variants dto) <=? 10)%nat = true /\
       exists g, cr_product r = Some g /\ pid = simplifyGid g)
   \/ ((length (variants dto) <=? 10)%nat = false /\
       exists op, productSetOperation r = Some op /\
       ((op_status_of op = COMPLETE /\ op_product op = Some pid) \/
        (op_status_of op <> COMPLETE /\
         exists j pop, poll j (op_id op) = GResp (Some {| productOperation := Some pop |}) None /\
                       po_status pop = COMPLETE /\ po_product pop = Some pid /\ po_userErrors pop = [])))).
Proof.
  intros mutate poll elapsed fuel dto pid H. unfold create in H.
  destruct (mutate dto _) as [m|[r|] [e|]] eqn:Em; try discriminate.
  exists r. split; [reflexivity|].
  destruct (userErrors r) as [|u us] eqn:Eu; [|discriminate]. split; [reflexivity|].
  destruct (length (variants dto) <=? 10)%nat eqn:Es.
  - left. split; [reflexivity|].
    destruct (cr_product r) as [g|]; [|discriminate]. inversion H; subst. eexists; split; reflexivity.
  - right. split; [reflexivity|].
    destruct (productSetOperation r) as [op|]; [|discriminate]. exists op. split; [reflexivity|].
    destruct (op_status_of op) eqn:Eop.
    + right. split; [discriminate|].
      destruct (wait_loop_ok_sound _ _ _ _ _ _ H) as [j [pop [_ R]]]. exists j, pop. exact R.
    + right. split; [discriminate|].
      destruct (wait_loop_ok_sound _ _ _ _ _ _ H) as [j [pop [_ R]]]. exists j, pop. exact R.
    + left. split; [reflexivity|]. destruct (op_product op); [congruence|discriminate].
Qed.

Definition pending_reply : gql ProductCreateResponse :=
  GResp (Some {| cr_product := None;
                 productSetOperation := Some {| op_id := "op1"; op_status_of := CREATED; op_product := None |};
                 userErrors := [] |}) None.

Lemma create_ok_sound_witness :
  create (fun _ _ => pending_reply) (poll_created_then 2) every_poll_ms 10 (sized_request 12) =
  Some (Ok "gid://shopify/Product/7") /\
  exists r, pending_reply = GResp (Some r) None /\ userErrors r = [] /\
    ( ((length (variants (sized_request 12)) <=? 10)%nat = true /\
       exists g, cr_product r = Some g /\ "gid://shopify/Product/7" = simplifyGid g)
   \/ ((length (variants (sized_request 12)) <=? 10)%nat = false /\
       exists op, productSetOperation r = Some op /\
       ((op_status_of op = COMPLETE /\ op_product op = Some "gid://shopify/Product/7") \/
        (op_status_of op <> COMPLETE /\
         exists j pop, poll_created_then 2 j (op_id op) = GResp (Some {| productOperation := Some pop |}) None /\
                       po_status pop = COMPLETE /\ po_product pop = Some "gid://shopify/Product/7" /\
                       po_userErrors pop = [])))).
Proof.
  split; [vm_compute; reflexivity|].
  apply (create_ok_sound (fun _ _ => pending_reply) (poll_created_then 2) every_poll_ms 10 (sized_request 12)).
  vm_compute. reflexivity.
Defined.

(** ** Global IDs of any kind ([simplifyGid]) *)

Lemma split_slash_app :
  forall kind rest,
  all_chars (fun c => negb (Ascii.eqb c "/"%char)) kind = true ->
  split_slash (kind ++ String "/"%char rest) = (kind, Some rest).
Proof.
  induction kind as [|c kind IH]; intros rest H; [reflexivity|].
  simpl in H. apply andb_prop in H. destruct H as [Hc Hk].
  simpl. destruct (Ascii.eqb c "/"%char); [discriminate|]. rewrite IH by exact Hk. reflexivity.
Qed.

Lemma simplifyGid_gid_tail :
  forall kind rest,
  kind <> "" -> all_chars (fun c => negb (Ascii.eqb c "/"%char)) kind = true ->
  rest <> "" -> all_chars (fun c => negb (is_line_terminator c)) rest = true ->
  simplifyGid ("gid://shopify/" ++ kind ++ "/" ++ rest) = rest.
Proof.
  intros kind rest Hk Hks Hr Hrl. unfold simplifyGid.
  rewrite strip_prefix_app. change ("/" ++ rest) with (String "/"%char rest).
  rewrite split_slash_app by exact Hks.
  destruct kind as [|c kind]; [congruence|]. destruct rest as [|d rest]; [congruence|].
  rewrite Hrl. reflexivity.
Qed.

(** [simplifyGid] maps ["gid://shopify/<Kind>/<rest>"] to [<rest>] for any
    non-empty kind without ['/'] and any non-empty [rest] without line
    terminators ([rest] may itself hold ['/']); an id without the
    ["gid://shopify/"] prefix is returned unchanged. *)
Theorem simplifyGid_strips_kind :
  forall kind rest id,
  (kind <> "" -> all_chars (fun c => negb (Ascii.eqb c "/"%char)) kind = true ->
   rest <> "" -> all_chars (fun c => negb (is_line_terminator c)) rest = true ->
   simplifyGid ("gid://shopify/" ++ kind ++ "/" ++ rest) = rest) /\
  (startsWith id "gid://shopify/" = false -> simplifyGid id = id).
Proof.
  intros kind rest id. split.
  - apply simplifyGid_gid_tail.
  - unfold startsWith, simplifyGid. destruct (strip_prefix _ id); [discriminate|reflexivity].
Qed.

Lemma simplifyGid_strips_kind_witness :
  simplifyGid "gid://shopify/Location/7/a" = "7/a" /\ simplifyGid "7" = "7".
Proof.
  split.
  - apply (proj1 (simplifyGid_strips_kind "Location" "7/a" "7")); (discriminate || reflexivity).
  - apply (proj2 (simplifyGid_strips_kind "Location" "7/a" "7")). reflexivity.
Defined.

(** ** Locations *)

(** [locations] keeps the nodes of the reply in order, with each
    ["gid://shopify/Location/<n>"] id reduced to [<n>] and the other
    fields unchanged; a reply without data or without [locations] gives
    the empty list. *)
Theorem locations_simplifies_ids :
  forall ls e,
  Forall (fun l => exists n, loc_id l = "gid://shopify/Location/" ++ n /\ n <> "" /\
                             all_chars (fun c => negb (is_line_terminator c)) n = true) ls ->
  (exists rs, locations (GResp (Some {| locations_of := Some {| loc_edges := ls |} |}) e) = Ok rs /\
   Forall2 (fun l r => loc_id l = "gid://shopify/Location/" ++ loc_id r /\ loc_name r = loc_name l /\
                       isActive r = isActive l /\ fulfillsOnlineOrders r = fulfillsOnlineOrders l) ls rs) /\
  locations (GResp None e) = Ok [] /\
  locations (GResp (Some {| locations_of := None |}) e) = Ok [].
Proof.
  intros ls e Hall. split; [|split; reflexivity].
  eexists. split; [reflexivity|].
  induction Hall as [|l ls [n [Hid [Hn Hnl]]] _ IH]; simpl; constructor; [|exact IH].
  simpl. rewrite Hid.
  replace ("gid://shopify/Location/" ++ n) with ("gid://shopify/" ++ "Location" ++ "/" ++ n) by reflexivity.
  rewrite (simplifyGid_gid_tail "Location" n); try discriminate; auto.
Qed.

Definition two_locations : list StoreLocation :=
  [{| loc_id := "gid://shopify/Location/11"; loc_name := "Main"; isActive := true;
      fulfillsOnlineOrders := true |};
   {| loc_id := "gid://shopify/Location/12"; loc_name := "Back"; isActive := false;
      fulfillsOnlineOrders := false |}].

Lemma locations_simplifies_ids_witness :
  locations (GResp (Some {| locations_of := Some {| loc_edges := two_locations |} |}) None) =
  Ok [{| loc_id := "11"; loc_name := "Main"; isActive := true; fulfillsOnlineOrders := true |};
      {| loc_id := "12"; loc_name := "Back"; isActive := false; fulfillsOnlineOrders := false |}] /\
  locations (GResp None None) = Ok [].
Proof.
  destruct (locations_simplifies_ids two_locations None) as [_ [H _]].
  - repeat constructor.
    + exists "11". repeat split; (discriminate || reflexivity).
    + exists "12". repeat split; (discriminate || reflexivity).
  - split; [vm_compute; reflexivity|exact H].
Defined.

(** ** Sort order of the listing ([mapSort]) *)

(** [mapSort] reads only the first sort item, and reads the query only
    when no sort item is given. *)
Theorem mapSort_first_item_only :
  forall params,
  mapSort params = mapSort {| query := query params; page := page params; limit := limit params;
                              sort := firstn 1 (sort params); filters := filters params |} /\
  (sort params <> [] ->
   mapSort params = mapSort {| query := None; page := page params; limit := limit params;
                               sort := sort params; filters := filters params |}).
Proof.
  intros [q p l s f]. split.
  - destruct s; reflexivity.
  - intros H. destruct s as [|x s]; [exfalso; apply H; reflexivity|reflexivity].
Qed.

Lemma mapSort_first_item_only_witness :
  mapSort {| query := Some "shoe"; page := 1; limit := 10;
             sort := [{| by_ := SortName; dir := Desc |}; {| by_ := SortUpdated; dir := Asc |}];
             filters := None |} = ("TITLE", true).
Proof.
  rewrite (proj2 (mapSort_first_item_only
                    {| query := Some "shoe"; page := 1; limit := 10;
                       sort := [{| by_ := SortName; dir := Desc |}; {| by_ := SortUpdated; dir := Asc |}];
                       filters := None |})); [reflexivity|discriminate].
Defined.

(** ** Primary image ([extractPrimaryImage]) *)

Lemma media_candidate_sound :
  forall n img, media_candidate n = Some img ->
  io_url img <> "" /\
  (media_url n = Some (io_url img) \/ exists p, m_preview n = Some p /\ img_url p = io_url img).
Proof.
  intros [t i p] img H. unfold media_candidate, media_url in *. cbn [typename m_image m_preview] in *.
  destruct t, i as [[iu ia]|], p as [[pu pa]|]; cbn [img_url altText] in *;
    unfold truthy_url, truthy_str in H; try destruct iu; try destruct pu; simpl in H;
    try discriminate; inversion H; subst; cbn [io_url];
    (split; [discriminate|first [left; reflexivity | right; eexists; split; reflexivity]]).
Qed.

Lemma first_media_sound :
  forall ms img, first_media ms = Some img -> exists n, In n ms /\ media_candidate n = Some img.
Proof.
  induction ms as [|m ms IH]; intros img H; [discriminate|].
  simpl in H. destruct (media_candidate m) as [r|] eqn:Em.
  - inversion H; subst. exists m. split; [left; reflexivity|exact Em].
  - destruct (IH _ H) as [n [Hin Hc]]. exists n. split; [right; exact Hin|exact Hc].
Qed.

Lemma extractPrimaryImage_source :
  forall featured ms img,
  extractPrimaryImage featured ms = Some img ->
  io_url img <> "" /\
  exists n, (featured = Some n \/ In n ms) /\
    (media_url n = Some (io_url img) \/ exists p, m_preview n = Some p /\ img_url p = io_url img).
Proof.
  intros featured ms img H. unfold extractPrimaryImage in H.
  assert (Hlist : first_media ms = Some img ->
                  io_url img <> "" /\
                  exists n, (featured = Some n \/ In n ms) /\
                    (media_url n = Some (io_url img) \/
                     exists p, m_preview n = Some p /\ img_url p = io_url img)).
  { intros Hf. destruct (first_media_sound _ _ Hf) as [n [Hin Hc]].
    destruct (media_candidate_sound _ _ Hc) as [Hne Hsrc].
    split; [exact Hne|]. exists n. split; [right; exact Hin|exact Hsrc]. }
  destruct featured as [f|]; [|exact (Hlist H)].
  destruct (typename f) eqn:Et; try exact (Hlist H).
  destruct (truthy_url (media_url f)) as [u|] eqn:Eu; [|exact (Hlist H)].
  inversion H; subst. unfold truthy_url, truthy_str in Eu.
  destruct (media_url f) as [[|c s]|] eqn:Em; try discriminate. inversion Eu; subst.
  split; [discriminate|]. exists f. split; [left; reflexivity|left; exact Em].
Qed.

(** The image [extractPrimaryImage] picks never has an empty url, and its
    url is the image or preview url of the featured media or of one of the
    media entries. *)
Theorem extractPrimaryImage_sound :
  forall featured ms img,
  extractPrimaryImage featured ms = Some img ->
  io_url img <> "" /\
  exists n, (featured = Some n \/ In n ms) /\
    (media_url n = Some (io_url img) \/ exists p, m_preview n = Some p /\ img_url p = io_url img).
Proof. exact extractPrimaryImage_source. Qed.

Definition video_preview : MediaNode :=
  {| typename := Video; m_image := None;
     m_preview := Some {| img_url := "https://cdn/v.jpg"; altText := None |} |}.

Definition plain_image : MediaNode :=
  {| typename := MediaImage; m_image := Some {| img_url := "https://cdn/i.jpg"; altText := Some "front" |};
     m_preview := None |}.

Lemma extractPrimaryImage_sound_witness :
  extractPrimaryImage None [video_preview; plain_image] =
  Some {| io_url := "https://cdn/v.jpg"; io_alt := None |} /\
  io_url {| io_url := "https://cdn/v.jpg"; io_alt := None |} <> "" /\
  exists n, (None = Some n \/ In n [video_preview; plain_image]) /\
    (media_url n = Some "https://cdn/v.jpg" \/
     exists p, m_preview n = Some p /\ img_url p = "https://cdn/v.jpg").
Proof.
  split; [reflexivity|].
  apply (extractPrimaryImage_sound None [video_preview; plain_image]). reflexivity.
Defined.

(** ** Record normaliser ([mapUnifiedProduct]) *)

(** [mapUnifiedProduct] yields at most one image, never one with an empty
    url; one unified variant per GraphQL variant, in order, whose options
    are the selected options followed by at most one more entry (the SKU);
    and it strips the product and variant GID prefixes from the ids. *)
Theorem mapUnifiedProduct_shape :
  forall (Num : Type) (parseFloat : string -> Num) (p : GQLProductNode),
  let u := mapUnifiedProduct parseFloat p in
  (length (images u) <= 1)%nat /\
  Forall (fun i => io_url i <> "") (images u) /\
  Forall2 (fun v uv =>
             (exists extra, uv_options uv = (selectedOptions v ++ extra)%list /\ (length extra <= 1)%nat) /\
             (forall s, vn_id v = variant_prefix ++ s -> uv_id uv = s))
          (g_variants p) (u_variants u) /\
  (forall s, g_id p = product_prefix ++ s -> u_id u = s).
Proof.
  intros Num parseFloat p u. unfold u, mapUnifiedProduct. cbn [images u_variants u_id].
  split; [|split; [|split]].
  - destruct (extractPrimaryImage _ _); simpl; lia.
  - destruct (extractPrimaryImage _ _) as [i|] eqn:E; repeat constructor.
    exact (proj1 (extractPrimaryImage_source _ _ _ E)).
  - induction (g_variants p) as [|v vs IH]; simpl; constructor; [|exact IH]. split.
    + eexists. split; [reflexivity|]. destruct (truthy_str (vn_sku v)); simpl; lia.
    + intros s Hs. unfold mapVariant. cbn [uv_id]. rewrite Hs. unfold simplifyProductVariantGid.
      exact (replace_first_prefix variant_prefix "" s).
  - intros s Hs. rewrite Hs. unfold simplifyProductGid. rewrite replace_first_prefix. reflexivity.
Qed.

(** ** Accepted creation requests ([CreateProductSchema]) *)

(** A request [validate_create] accepts has at most 3 options and 100
    variants, declares options whenever it has variants, gives every
    variant a price of at least 0 below any compare-at price, and names in
    every option value of a variant a declared option that lists that value. *)
Theorem validate_create_sound :
  forall data, validate_create data = true ->
  (length (productOptions data) <= 3)%nat /\ (length (variants data) <= 100)%nat /\
  (variants data <> [] -> productOptions data <> []) /\
  Forall (fun v =>
            (0 <= price v)%Z /\
            (forall c, compareAtPrice v = Some c -> (0 <= c)%Z /\ (price v < c)%Z) /\
            Forall (fun ov => exists vals, optionMap_lookup (productOptions data) (optionName ov) = Some vals /\
                                           In (ov_name ov) vals) (optionValues v))
         (variants data).
Proof.
  intros data H. unfold validate_create in H.
  apply andb_prop in H as [H Hc]. apply andb_prop in H as [H Hv]. apply andb_prop in H as [Ho Hn].
  apply Nat.leb_le in Ho. apply Nat.leb_le in Hn.
  unfold options_consistent in Hc.
  destruct ((0 <? length (variants data))%nat && (length (productOptions data) =? 0)%nat) eqn:Ee;
    [discriminate|].
  split; [exact Ho|]. split; [exact Hn|]. split.
  - intros Hvs Hos. rewrite Hos in Ee. destruct (variants data) as [|x xs]; [congruence|].
    discriminate.
  - apply Forall_forall. intros v Hin.
    rewrite forallb_forall in Hv. specialize (Hv v Hin).
    rewrite forallb_forall in Hc. specialize (Hc v Hin).
    unfold valid_variant in Hv. rewrite !andb_true_iff in Hv.
    destruct Hv as [[[[Hp Hca] _] _] Hlt].
    split; [apply Z.leb_le; exact Hp|]. split.
    + intros c Ec. rewrite Ec in Hca, Hlt. split; [apply Z.leb_le; exact Hca|apply Z.ltb_lt; exact Hlt].
    + apply Forall_forall. intros ov Hov. rewrite forallb_forall in Hc. specialize (Hc ov Hov).
      destruct (optionMap_lookup _ _) as [vals|]; [|discriminate].
      exists vals. split; [reflexivity|]. apply existsb_exists in Hc as [x [Hx Heq]].
      apply String.eqb_eq in Heq. subst. exact Hx.
Qed.

(** ** Sort parameters ([makeSortSchema] with [productSortKeys]) *)

Definition sort_key_name (b : sort_by) : string :=
  match b with SortUpdated => "updated" | SortName => "name" end.

(** The ["campo,dir"] text of a sort item. *)
Definition render_sort_item (it : SortItem) : string :=
  sort_key_name (by_ it) ++ "," ++ match dir it with Asc => "asc" | Desc => "desc" end.

Lemma parse_product_sort_cons :
  forall x l,
  parse_product_sort (Some (inr (x :: l))) =
  let (b, d) := parse_sort_entry x in
  match product_sort_key b, parse_product_sort (Some (inr l)) with
  | Some k, Ok r => Ok ({| by_ := k; dir := d |} :: r)
  | _, _ => Err "Campo de orden no permitido"
  end.
Proof. reflexivity. Qed.

Lemma parse_sort_entry_render :
  forall it, parse_sort_entry (render_sort_item it) = (sort_key_name (by_ it), dir it).
Proof. intros [[|] [|]]; reflexivity. Qed.

(** Parsing the ["campo,dir"] texts of any list of sort items gives back
    that list, in order. *)
Theorem parse_product_sort_roundtrip :
  forall sorts, parse_product_sort (Some (inr (map render_sort_item sorts))) = Ok sorts.
Proof.
  induction sorts as [|it sorts IH]; [reflexivity|].
  simpl map. rewrite parse_product_sort_cons, parse_sort_entry_render, IH.
  destruct it as [[|] d]; reflexivity.
Qed.

(** One entry whose field is not ["updated"] or ["name"] makes the whole
    sort parameter fail, wherever it stands in the array. *)
Theorem parse_product_sort_rejects_unknown_field :
  forall pre s post,
  product_sort_key (fst (parse_sort_entry s)) = None ->
  parse_product_sort (Some (inr (pre ++ s :: post)%list)) = Err "Campo de orden no permitido".
Proof.
  intros pre s post H. induction pre as [|x pre IH].
  - simpl app. rewrite parse_product_sort_cons. destruct (parse_sort_entry s) as [b d].
    simpl in H. rewrite H. reflexivity.
  - simpl app. rewrite parse_product_sort_cons, IH. destruct (parse_sort_entry x) as [b d].
    destruct (product_sort_key b); reflexivity.
Qed.

Lemma parse_product_sort_rejects_unknown_field_witness :
  parse_product_sort (Some (inr ["name,desc"; "price,asc"])) = Err "Campo de orden no permitido".
Proof.
  apply (parse_product_sort_rejects_unknown_field ["name,desc"] "price,asc" []). reflexivity.
Defined.

Lemma validate_create_sound_witness :
  validate_create (sized_request 3) = true /\
  (length (productOptions (sized_request 3)) <= 3)%nat /\ (length (variants (sized_request 3)) <= 100)%nat /\
  (variants (sized_request 3) <> [] -> productOptions (sized_request 3) <> []) /\
  Forall (fun v =>
            (0 <= price v)%Z /\
            (forall c, compareAtPrice v = Some c -> (0 <= c)%Z /\ (price v < c)%Z) /\
            Forall (fun ov => exists vals,
                      optionMap_lookup (productOptions (sized_request 3)) (optionName ov) = Some vals /\
                      In (ov_name ov) vals) (optionValues v))
         (variants (sized_request 3)).
Proof.
  split; [vm_compute; reflexivity|].
  apply validate_create_sound. vm_compute. reflexivity.
Defined.

(** ** The search string ([buildShopifyQuery]) *)

Lemma escapeDefault_cons :
  forall s, s <> "" -> exists c r, escapeDefault s = String c r.
Proof.
  intros [|d s] H; [congruence|]. unfold escapeDefault. cbn [replace_all_char].
  destruct (Ascii.eqb _ d); eexists; eexists; reflexivity.
Qed.

(** The listing and count requests send [query: null] exactly when the
    free text is absent or blank and no filter is set: no truthy vendor or
    category, no price bound, and [available_only] not [true]. *)
Theorem buildShopifyQuery_null_iff_no_criteria :
  forall params,
  query_var (buildShopifyQuery params) = None <->
  (match query params with Some q => trim q = "" | None => True end) /\
  (let f := match filters params with Some f => f | None => no_filters end in
   truthy_str (vendor f) = None /\ truthy_str (category f) = None /\
   price_min f = None /\ price_max f = None /\ available_only f <> Some true).
Proof.
  intros [q pg lm so fs]. unfold buildShopifyQuery, push. cbn [query filters].
  destruct (match fs with Some f => f | None => no_filters end) as [c pmin pmax av vd].
  cbn [vendor category price_min price_max available_only].
  destruct q as [q|].
  - destruct (String.eqb (trim q) "") eqn:Et.
    + apply String.eqb_eq in Et.
      destruct (truthy_str vd), (truthy_str c), pmin, pmax; try destruct av as [[|]|];
        simpl; split; intros H; intuition congruence.
    + apply String.eqb_neq in Et. destruct (escapeDefault_cons _ Et) as [c0 [r0 Hr]].
      rewrite Hr.
      destruct (truthy_str vd), (truthy_str c), pmin, pmax; try destruct av as [[|]|];
        simpl; split; intros H; intuition congruence.
  - destruct (truthy_str vd), (truthy_str c), pmin, pmax; try destruct av as [[|]|];
      simpl; split; intros H; intuition congruence.
Qed.

(** ** The variant-overflow walk on its own ([fetchAdditionalVariants]) *)

(** Started from the cursor after the first [n] variants, with fuel for
    the remaining pages of 250, [fetchAdditionalVariants] returns exactly
    the variants after the first [n], in order. *)
Theorem fetchAdditionalVariants_rest :
  forall (VNode : Type) (vs : list VNode) fuel id n,
  (n <= length vs)%nat -> (1 <= fuel)%nat ->
  (length vs <= n + fuel * DETAILS_VARIANTS_PAGE_SIZE)%nat ->
  fetchAdditionalVariants (variants_backend vs) fuel id (Some (cursor_at n)) = Some (Ok (skipn n vs)).
Proof.
  intros VNode vs fuel id n Hn Hf Hlen. unfold fetchAdditionalVariants.
  rewrite fetch_loop_variants_collect; rewrite ?pos_of_or_null_cursor; auto.
Qed.

Lemma fetchAdditionalVariants_rest_witness :
  fetchAdditionalVariants (variants_backend product_300) 1 "gid://shopify/Product/42" (Some (cursor_at 250))
  = Some (Ok (seq 250 50)).
Proof.
  rewrite (fetchAdditionalVariants_rest nat product_300 1 "gid://shopify/Product/42" 250);
    [reflexivity|vm_compute; lia|lia|vm_compute; lia].
Defined.
